(** * scanning-squid: the scanner driver (scanner.py)

    A shallow embedding of [Scanner] from [scanner.py]: the motion API
    ([get_pos], [make_ramp], [goto], [retract], the constructor) and the
    capacitive touchdown detector ([check_for_td]).

    Conventions of the embedding.
    - Python floats are idealised as rationals ([Q]); [==] is equality of
      rationals.  Where numpy would produce [inf] or [nan] (a division by
      zero) the model says so explicitly.  That reading serves where the
      numbers are carried along (which calls are made, in which order, on
      which target).  Where the numbers themselves are the subject, the
      sample count and the samples of a ramp, [make_ramp] is also given in
      double precision, every operation rounded as IEEE 754 binary64 rounds
      it ([Float64]).
    - Python integers (indices, sample counts) are [Z].
    - The DAQ is an explicit world: a trace of driver calls, an oracle for
      what the analog inputs show at the k-th read, the log, and the mutable
      attributes of the objects involved.  Driver calls are taken to
      complete.
    - Exceptions are values of [exn]; a computation is a state-and-error
      monad [M] over the world. *)

From Stdlib Require Import ZArith QArith Qround Qabs Qminmax Qpower Qreduction.
From Stdlib Require Import List String Ascii Bool Lia Lqa.
Import ListNotations.

Local Open Scope Q_scope.

(** ** Exceptions and results *)

Inductive axis : Type := X | Y | Z_ax.

Definition axes : list axis := [X; Y; Z_ax].

Inductive exn : Type :=
| ValueError_temp                              (* 'Temperature mode must be "LT" or "RT".' *)
| ValueError_range (ax : axis) (ax_lim : list Q) (* 'Requested position is out of range for {} axis. ...' *)
| ValueError_empty                             (* min()/max() of an empty sequence *)
| TypeError_validator                          (* qcodes Numbers: max_value must be bigger than min_value *)
| DimensionalityError                          (* pint: cannot convert between the two units *)
| OverflowError                                (* int(inf) *)
| ValueError_nan                               (* int(nan) *)
| ValueError_linspace (num : Z)                (* numpy: number of samples must be non-negative *)
| IndexError.                                  (* index out of bounds *)

Inductive result (A : Type) : Type :=
| Ok (a : A)
| Raise (e : exn).

Arguments Ok {A} a.
Arguments Raise {A} e.

(** ** Python and numpy helpers *)

Definition Qltb (a b : Q) : bool := negb (Qle_bool b a).

(** [int(x)]: truncation toward zero. *)
Definition py_int (q : Q) : Z := Z.quot (Qnum q) (Zpos (Qden q)).

(** [min(l)] and [max(l)]: the first smallest (largest) element, [None] for
    the empty sequence (Python raises ValueError). *)
Fixpoint py_min_from (cur : Q) (l : list Q) : Q :=
  match l with
  | [] => cur
  | x :: r => py_min_from (if Qltb x cur then x else cur) r
  end.

Fixpoint py_max_from (cur : Q) (l : list Q) : Q :=
  match l with
  | [] => cur
  | x :: r => py_max_from (if Qltb cur x then x else cur) r
  end.

Definition py_min (l : list Q) : option Q :=
  match l with [] => None | x :: r => Some (py_min_from x r) end.

Definition py_max (l : list Q) : option Q :=
  match l with [] => None | x :: r => Some (py_max_from x r) end.

(** [sorted(l)]: a stable ascending sort. *)
Fixpoint insert_sorted (x : Q) (l : list Q) : list Q :=
  match l with
  | [] => [x]
  | y :: r => if Qltb x y then x :: y :: r else y :: insert_sorted x r
  end.

Definition sorted (l : list Q) : list Q := fold_left (fun acc x => insert_sorted x acc) l [].

(** [np.rint] and [np.round(x, decimals=3)]: round half to even, the latter
    on the third decimal, in exact arithmetic. *)
Definition rint (q : Q) : Z :=
  let f := Qfloor q in
  match Qcompare (q - inject_Z f) (1 # 2) with
  | Lt => f
  | Gt => (f + 1)%Z
  | Eq => if Z.even f then f else (f + 1)%Z
  end.

Definition np_round3 (q : Q) : Q := inject_Z (rint (q * 1000)) / 1000.

(** [np.linspace(start, stop, num)]: [num] evenly spaced samples, the last
    one overwritten with [stop] when [num > 1]. *)
Definition linspace (start stop : Q) (num : Z) : result (list Q) :=
  if (num <? 0)%Z then Raise (ValueError_linspace num)
  else
    let step := (stop - start) / inject_Z (num - 1) in
    let y := map (fun i => inject_Z (Z.of_nat i) * step + start) (seq 0 (Z.to_nat num)) in
    Ok (if (1 <? num)%Z then removelast y ++ [stop] else y).

(** [str.upper()] on ASCII letters. *)
Definition upper_ascii (c : ascii) : ascii :=
  let n := nat_of_ascii c in
  if (97 <=? n)%nat && (n <=? 122)%nat then ascii_of_nat (n - 32) else c.

Fixpoint upper (s : string) : string :=
  match s with
  | EmptyString => EmptyString
  | String c r => String (upper_ascii c) (upper r)
  end.

(** ** pint quantities

    What [self.Q_(v).to(unit).magnitude] does with the arguments the driver
    passes: a unit string parses to a magnitude and a unit, a bare number is
    a dimensionless quantity, and converting between different dimensions
    raises DimensionalityError. *)

Inductive units : Type := Dimensionless | Volt | Volt_per_second | Hertz.

Definition units_eqb (u v : units) : bool :=
  match u, v with
  | Dimensionless, Dimensionless | Volt, Volt
  | Volt_per_second, Volt_per_second | Hertz, Hertz => true
  | _, _ => false
  end.

Inductive qarg : Type :=
| QStr (mag : Q) (u : units)      (* a string such as '2 V/s' *)
| QNum (mag : Q).                 (* a bare int or float *)

Definition Q_ (v : qarg) : Q * units :=
  match v with
  | QStr m u => (m, u)
  | QNum m => (m, Dimensionless)
  end.

Definition to_magnitude (q : Q * units) (u : units) : result Q :=
  if units_eqb (snd q) u then Ok (fst q) else Raise DimensionalityError.

(** ** Positions, the scanner object and the world *)

Record pos : Type := mkpos { px : Q; py : Q; pz : Q }.

Definition nth_ax (p : pos) (ax : axis) : Q :=
  match ax with X => px p | Y => py p | Z_ax => pz p end.

Definition origin : pos := mkpos 0 0 0.

Inductive temp_mode : Type := RT | LT.

(** The attributes [_parse_unitful_quantities] leaves on [self]. *)
Record scanner : Type := mkScanner {
  temp : temp_mode;
  daq_rate : Q;                                   (* Hz *)
  voltage_retract : temp_mode -> Q;               (* V *)
  speed : Q;                                      (* V/s *)
  voltage_limits : temp_mode -> axis -> list Q    (* V *)
}.

Inductive hw_event : Type :=
| TaskOpen (name : string)
| AddAI (ax : axis)
| ReadAI (raw : pos)
| AddAO (ax : axis)
| CfgTiming (rate : Q) (samps_per_chan : nat)
| WriteAO (ramp : list (list Q))
| Start
| WaitUntilDone
| TaskClose (name : string).

Inductive level : Type := DEBUG | INFO | WARNING.

Inductive log_msg : Type :=
| Msg_wrote (pts : nat)                  (* 'Wrote {} samples to {}.' *)
| Msg_moved (old_pos current_pos : pos)  (* 'Moved scanner from {} V to {} V.' *)
| Msg_max_speed (v : Q)                  (* 'Setting ramp speed to maximum allowed: {} V/s.' *)
| Msg_unbalanced                         (* 'Capacitance bridge is too unbalanced to continue.' *)
| Msg_railing                            (* 'CAP_lockin is railing.' *)
| Msg_pre_slope (slope : Q)              (* 'Pre-touchdown slope +/- {} {}/V is too big.' *)
| Msg_touchdown (height : Q)             (* 'Touchdown occured at {:.4} V.' *)
| Msg_no_touchdown.                      (* 'Touchdown did not occur in range {}.' *)

Record world : Type := mkWorld {
  hw : list hw_event;            (* driver calls, oldest first *)
  ai_signal : nat -> pos;        (* what the analog inputs show at the k-th read *)
  reads : nat;                   (* number of analog-input reads so far *)
  logs : list (level * log_msg); (* oldest first *)
  meta_position : option pos     (* metadata['position'] x, y, z *)
}.

(** ** The state-and-error monad *)

Definition MS (S A : Type) : Type := S -> result A * S.

Definition ret {S A} (a : A) : MS S A := fun w => (Ok a, w).

Definition raise {S A} (e : exn) : MS S A := fun w => (Raise e, w).

Definition bind {S A B} (m : MS S A) (k : A -> MS S B) : MS S B :=
  fun w => match m w with
           | (Ok a, w') => k a w'
           | (Raise e, w') => (Raise e, w')
           end.

Definition lift {S A} (r : result A) : MS S A := fun w => (r, w).

(** Computations of the motion API run over the DAQ world. *)
Definition M (A : Type) : Type := MS world A.

Notation "x <- m ;; k" := (bind m (fun x => k))
  (at level 61, m at next level, right associativity).
Notation "m ;;; k" := (bind m (fun _ => k))
  (at level 61, right associativity).

Definition emit (evs : list hw_event) : M unit :=
  fun w => (Ok tt, mkWorld (hw w ++ evs) (ai_signal w) (reads w) (logs w) (meta_position w)).

Definition log (l : level) (m : log_msg) : M unit :=
  fun w => (Ok tt, mkWorld (hw w) (ai_signal w) (reads w) (logs w ++ [(l, m)]) (meta_position w)).

Definition set_meta_position (p : pos) : M unit :=
  fun w => (Ok tt, mkWorld (hw w) (ai_signal w) (reads w) (logs w) (Some p)).

(** The [with nidaqmx.Task('get_pos_ai_task')] block of [get_pos]: the
    three channels are added and read once. *)
Definition ai_task_calls (raw : pos) : list hw_event :=
  [TaskOpen "get_pos_ai_task"; AddAI X; AddAI Y; AddAI Z_ax; ReadAI raw;
   TaskClose "get_pos_ai_task"].

Definition read_ai : M pos :=
  fun w => let raw := ai_signal w (reads w) in
           (Ok raw, mkWorld (hw w ++ ai_task_calls raw) (ai_signal w) (S (reads w))
                            (logs w) (meta_position w)).

(** ** Motion: [get_pos], [make_ramp], [goto], [retract] *)

(** [Scanner.get_pos]: one read of the three analog inputs, rounded to three
    decimals and mirrored into the metadata. *)
Definition round_pos (raw : pos) : pos :=
  mkpos (np_round3 (px raw)) (np_round3 (py raw)) (np_round3 (pz raw)).

Definition get_pos : M pos :=
  raw <- read_ai ;;
  let p := round_pos raw in
  set_meta_position p ;;;
  ret p.

(** [self.position()]: the qcodes parameter whose [get_cmd] is [get_pos]. *)
Definition position : M pos := get_pos.

(** [np.max(np.abs(pos1 - pos0))]. *)
Definition max_ramp_distance (pos0 pos1 : pos) : Q :=
  Qmax (Qabs (px pos1 - px pos0))
       (Qmax (Qabs (py pos1 - py pos0)) (Qabs (pz pos1 - pz pos0))).

(** [int(max_ramp_distance / speed * self.daq_rate) + 2], in exact
    arithmetic ([Float64.ramp_npts] is the count in double precision).  With
    a zero speed numpy divides to [inf] (or [nan] for a zero distance) and
    [int] raises. *)
Definition ramp_npts (s : scanner) (d spd : Q) : result Z :=
  if Qeq_bool spd 0 then
    if Qeq_bool d 0 || Qeq_bool (daq_rate s) 0 then Raise ValueError_nan
    else Raise OverflowError
  else Ok (py_int (d / spd * daq_rate s) + 2)%Z.

(** The loop [for i in range(3): ramp.append(np.linspace(...))]. *)
Fixpoint ramp_rows (pos0 pos1 : pos) (npts : Z) (axs : list axis) : result (list (list Q)) :=
  match axs with
  | [] => Ok []
  | ax :: rest =>
      match linspace (nth_ax pos0 ax) (nth_ax pos1 ax) npts with
      | Raise e => Raise e
      | Ok row =>
          match ramp_rows pos0 pos1 npts rest with
          | Raise e => Raise e
          | Ok rows => Ok (row :: rows)
          end
      end
  end.

(** [Scanner.make_ramp]. *)
Definition make_ramp (s : scanner) (pos0 pos1 : pos) (spd : Q) : M (list (list Q)) :=
  (if Qltb (speed s) spd then log WARNING (Msg_max_speed (speed s)) else ret tt) ;;;
  npts <- lift (ramp_npts s (max_ramp_distance pos0 pos1) spd) ;;
  lift (ramp_rows pos0 pos1 npts axes).

(** The optional [speed] argument of [goto] and [retract]:
    [self.speed.to('V/s').magnitude] when it is None, else
    [self.Q_(speed).to('V/s').magnitude]. *)
Definition speed_magnitude (s : scanner) (spd : option qarg) : result Q :=
  match spd with
  | None => Ok (speed s)
  | Some v => to_magnitude (Q_ v) Volt_per_second
  end.

(** The validation loop of [goto] over the axes x, y, z. *)
Fixpoint check_limits (s : scanner) (new_pos : pos) (axs : list axis) : result unit :=
  match axs with
  | [] => Ok tt
  | ax :: rest =>
      let ax_lim := sorted (voltage_limits s (temp s) ax) in
      match py_min ax_lim, py_max ax_lim with
      | Some lo, Some hi =>
          if Qltb (nth_ax new_pos ax) lo || Qltb hi (nth_ax new_pos ax)
          then Raise (ValueError_range ax ax_lim)
          else check_limits s new_pos rest
      | _, _ => Raise ValueError_empty
      end
  end.

(** The [with nidaqmx.Task('goto_ao_task')] block of [goto]. *)
Definition ao_task_calls (s : scanner) (ramp : list (list Q)) : list hw_event :=
  [TaskOpen "goto_ao_task"; AddAO X; AddAO Y; AddAO Z_ax;
   CfgTiming (daq_rate s) (List.length (nth 0 ramp []));
   WriteAO ramp; Start; WaitUntilDone; TaskClose "goto_ao_task"].

Definition write_ramp (s : scanner) (ramp : list (list Q)) : M unit :=
  emit (ao_task_calls s ramp) ;;;
  log DEBUG (Msg_wrote (List.length (nth 0 ramp []))).

(** The body of [Scanner.goto]; [staged] is the [else] branch, taken when
    [retract_first] is true.  Every call that branch makes to [goto] leaves
    [retract_first] at its default False, so the recursion is one level
    deep and is unfolded below. *)
Definition goto_body (staged : Q -> pos -> M unit) (s : scanner) (new_pos : pos)
    (retract_first : bool) (spd : option qarg) (quiet : bool) : M unit :=
  old_pos <- position ;;
  v <- lift (speed_magnitude s spd) ;;
  lift (check_limits s new_pos axes) ;;;
  (if negb retract_first then
     ramp <- make_ramp s old_pos new_pos v ;;
     write_ramp s ramp
   else staged v new_pos) ;;;
  current_pos <- position ;;
  log (if quiet then DEBUG else INFO) (Msg_moved old_pos current_pos) ;;;
  set_meta_position current_pos.

(** [goto] with [retract_first=False]. *)
Definition goto_direct (s : scanner) (new_pos : pos) (spd : option qarg) (quiet : bool) : M unit :=
  goto_body (fun _ _ => ret tt) s new_pos false spd quiet.

(** [Scanner.retract].  The speed is handed on as the string
    ['{} V/s'.format(speed)]. *)
Definition retract (s : scanner) (spd : option qarg) : M unit :=
  v <- lift (speed_magnitude s spd) ;;
  current_pos <- position ;;
  let v_retract := voltage_retract s (temp s) in
  goto_direct s (mkpos (px current_pos) (py current_pos) v_retract)
              (Some (QStr v Volt_per_second)) false.

(** The [else] branch of [goto].  [speed] is by now the float magnitude, and
    it is passed on as such: [self.retract(speed=speed)] and
    [self.goto(..., speed=speed)]. *)
Definition goto_staged (s : scanner) (v : Q) (new_pos : pos) : M unit :=
  retract s (Some (QNum v)) ;;;
  cur_pos <- get_pos ;;
  goto_direct s (mkpos (px new_pos) (py new_pos) (pz cur_pos)) (Some (QNum v)) false ;;;
  cur_pos <- get_pos ;;
  goto_direct s (mkpos (px cur_pos) (py cur_pos) (pz new_pos)) (Some (QNum v)) false.

(** [Scanner.goto]. *)
Definition goto (s : scanner) (new_pos : pos) (retract_first : bool)
    (spd : option qarg) (quiet : bool) : M unit :=
  goto_body (goto_staged s) s new_pos retract_first spd quiet.

(** ** Double precision

    IEEE 754 binary64, round to nearest, ties to even.  A finite double is
    the rational it stands for, kept in lowest terms; the sign of a zero is
    not kept (it shows only in a division by that zero, whose result, an
    infinity of either sign, [int] refuses in the same way). *)

(** [floor(log2 q)] for a positive [q]. *)
Definition log2_floor (q : Q) : Z :=
  let k := (Z.log2 (Qnum q) - Z.log2 (Zpos (Qden q)))%Z in
  if Qle_bool (2 ^ k) q then k else (k - 1)%Z.

(** The exponent of the last bit of the 53-bit significand of the double
    nearest [q], no lower than that of the subnormal numbers. *)
Definition ulp_exponent (q : Q) : Z := Z.max (log2_floor q - 52) (-1074).

(** The double nearest a rational [q >= 0], ties to even, the exponent
    unbounded above. *)
Definition round_magnitude (q : Q) : Q :=
  let e := ulp_exponent q in
  inject_Z (rint (q / 2 ^ e)) * 2 ^ e.

Definition round_nearest (q : Q) : Q :=
  if Qltb q 0 then - round_magnitude (- q) else round_magnitude q.

Inductive double : Type :=
| Finite (q : Q)
| Inf (negative : bool)
| NaN.

(** Rounding to binary64: a result of magnitude [2^1024] or more is an
    infinity. *)
Definition round_double (q : Q) : double :=
  let r := Qred (round_nearest q) in
  if Qle_bool (2 ^ 1024) (Qabs r) then Inf (Qltb q 0) else Finite r.


Module Float64.

(** The arithmetic of numpy on float64 values. *)
Definition sub (a b : double) : double :=
  match a, b with
  | NaN, _ | _, NaN => NaN
  | Finite x, Finite y => round_double (x - y)
  | Inf s, Inf s' => if Bool.eqb s s' then NaN else Inf s
  | Inf s, Finite _ => Inf s
  | Finite _, Inf s => Inf (negb s)
  end.

Definition add (a b : double) : double :=
  match a, b with
  | NaN, _ | _, NaN => NaN
  | Finite x, Finite y => round_double (x + y)
  | Inf s, Inf s' => if Bool.eqb s s' then Inf s else NaN
  | Inf s, Finite _ | Finite _, Inf s => Inf s
  end.

Definition mul (a b : double) : double :=
  match a, b with
  | NaN, _ | _, NaN => NaN
  | Finite x, Finite y => round_double (x * y)
  | Inf s, Inf s' => Inf (xorb s s')
  | Inf s, Finite y | Finite y, Inf s =>
      if Qeq_bool y 0 then NaN else Inf (xorb s (Qltb y 0))
  end.

Definition div (a b : double) : double :=
  match a, b with
  | NaN, _ | _, NaN => NaN
  | Inf _, Inf _ => NaN
  | Inf s, Finite y => Inf (xorb s (Qltb y 0))
  | Finite _, Inf _ => Finite 0
  | Finite x, Finite y =>
      if Qeq_bool y 0 then (if Qeq_bool x 0 then NaN else Inf (Qltb x 0))
      else round_double (x / y)
  end.

(** [np.abs]. *)
Definition abs (a : double) : double :=
  match a with
  | Finite x => Finite (Qabs x)
  | Inf _ => Inf false
  | NaN => NaN
  end.

(** [np.max] of two values: a [nan] propagates. *)
Definition max (a b : double) : double :=
  match a, b with
  | NaN, _ | _, NaN => NaN
  | Inf false, _ | _, Inf false => Inf false
  | Inf true, c | c, Inf true => c
  | Finite x, Finite y => Finite (Qmax x y)
  end.

(** [step == 0]. *)
Definition is_zero (a : double) : bool :=
  match a with
  | Finite x => Qeq_bool x 0
  | _ => false
  end.

(** [int(x)] on a float. *)
Definition int (a : double) : result Z :=
  match a with
  | Finite q => Ok (py_int q)
  | Inf _ => Raise OverflowError
  | NaN => Raise ValueError_nan
  end.

(** [np.max(np.abs(pos1 - pos0))]. *)
Definition max_ramp_distance (pos0 pos1 : pos) : double :=
  let d ax := abs (sub (Finite (nth_ax pos1 ax)) (Finite (nth_ax pos0 ax))) in
  max (d X) (max (d Y) (d Z_ax)).

(** [int(max_ramp_distance / speed * self.daq_rate) + 2]. *)
Definition ramp_npts (s : scanner) (d : double) (spd : Q) : result Z :=
  match int (mul (div d (Finite spd)) (Finite (daq_rate s))) with
  | Raise e => Raise e
  | Ok n => Ok (n + 2)%Z
  end.

(** [np.linspace(start, stop, num)] as numpy computes it:
    [y = arange(0, num) * step + start] with [step = (stop - start) / (num - 1)],
    or [y = arange(0, num) / (num - 1) * (stop - start) + start] when the
    step is zero, the last sample overwritten with [stop] when [num > 1]. *)
Definition linspace (start stop : Q) (num : Z) : result (list double) :=
  if (num <? 0)%Z then Raise (ValueError_linspace num)
  else
    let div_ := Finite (inject_Z (num - 1)) in
    let delta := sub (Finite stop) (Finite start) in
    let idx := map (fun i => Finite (inject_Z (Z.of_nat i))) (seq 0 (Z.to_nat num)) in
    let scaled :=
      if (0 <? num - 1)%Z then
        let step := div delta div_ in
        if is_zero step then map (fun i => mul (div i div_) delta) idx
        else map (fun i => mul i step) idx
      else map (fun i => mul i delta) idx in
    let y := map (fun v => add v (Finite start)) scaled in
    Ok (if (1 <? num)%Z then removelast y ++ [Finite stop] else y).

Fixpoint ramp_rows (pos0 pos1 : pos) (npts : Z) (axs : list axis)
    : result (list (list double)) :=
  match axs with
  | [] => Ok []
  | ax :: rest =>
      match linspace (nth_ax pos0 ax) (nth_ax pos1 ax) npts with
      | Raise e => Raise e
      | Ok row =>
          match ramp_rows pos0 pos1 npts rest with
          | Raise e => Raise e
          | Ok rows => Ok (row :: rows)
          end
      end
  end.

(** [Scanner.make_ramp] in double precision. *)
Definition make_ramp (s : scanner) (pos0 pos1 : pos) (spd : Q) : M (list (list double)) :=
  (if Qltb (speed s) spd then log WARNING (Msg_max_speed (speed s)) else ret tt) ;;;
  npts <- lift (ramp_npts s (max_ramp_distance pos0 pos1) spd) ;;
  lift (ramp_rows pos0 pos1 npts axes).

End Float64.

(** ** Construction *)

(** The scanner and DAQ configuration dictionaries, already parsed. *)
Record scanner_config : Type := mkConfig {
  cfg_rate : Q;
  cfg_voltage_retract : temp_mode -> Q;
  cfg_speed : Q;
  cfg_voltage_limits : temp_mode -> axis -> list Q
}.

(** [temp.upper() not in ['LT', 'RT']]. *)
Definition parse_temp (t : string) : option temp_mode :=
  if String.eqb (upper t) "LT" then Some LT
  else if String.eqb (upper t) "RT" then Some RT
  else None.

(** [vals.Numbers(lo, hi)]: qcodes refuses a maximum that is not bigger
    than the minimum. *)
Definition numbers_validator (lo hi : option Q) : result unit :=
  match lo, hi with
  | Some lo, Some hi => if Qltb lo hi then Ok tt else Raise TypeError_validator
  | _, _ => Raise ValueError_empty
  end.

Fixpoint axis_parameters (s : scanner) (axs : list axis) : result unit :=
  match axs with
  | [] => Ok tt
  | ax :: rest =>
      let lims_V := voltage_limits s (temp s) ax in
      match numbers_validator (py_min lims_V) (py_max lims_V) with
      | Raise e => Raise e
      | Ok _ => axis_parameters s rest
      end
  end.

(** [Scanner._initialize_parameters]: the validators of [position] and of
    [position_x], [position_y], [position_z]. *)
Definition initialize_parameters (s : scanner) : result unit :=
  let v_limits := flat_map (voltage_limits s (temp s)) axes in
  match numbers_validator (py_min v_limits) (py_max v_limits) with
  | Raise e => Raise e
  | Ok _ => axis_parameters s axes
  end.

(** [Scanner._parse_unitful_quantities]: the limits are stored sorted. *)
Definition parse_unitful_quantities (cfg : scanner_config) (t : temp_mode) : scanner :=
  mkScanner t (cfg_rate cfg) (cfg_voltage_retract cfg) (cfg_speed cfg)
            (fun tm ax => sorted (cfg_voltage_limits cfg tm ax)).

(** [Scanner.__init__]. *)
Definition Scanner_init (cfg : scanner_config) (t : string) : M scanner :=
  match parse_temp t with
  | None => raise ValueError_temp
  | Some tm =>
      let s := parse_unitful_quantities cfg tm in
      lift (initialize_parameters s) ;;;
      goto s origin false None false ;;;
      ret s
  end.

(** ** The touchdown detector: [check_for_td] *)

(** [l[k]] on a numpy array: a negative index counts from the end. *)
Definition py_index (l : list Q) (k : Z) : result Q :=
  let len := Z.of_nat (List.length l) in
  let k' := if (k <? 0)%Z then (k + len)%Z else k in
  if (k' <? 0)%Z || (len <=? k')%Z then Raise IndexError
  else Ok (nth (Z.to_nat k') l 0).

(** [l[start:stop]]: negative bounds count from the end, and bounds are
    clipped to the sequence. *)
Definition slice_bound (len k : Z) : Z :=
  if (k <? 0)%Z then Z.max 0 (k + len) else Z.min k len.

Definition py_slice (l : list Q) (start stop : option Z) : list Q :=
  let len := Z.of_nat (List.length l) in
  let a := match start with None => 0%Z | Some k => slice_bound len k end in
  let b := match stop with None => len | Some k => slice_bound len k end in
  firstn (Z.to_nat (b - a)) (skipn (Z.to_nat a) l).

(** [range(a, b)]. *)
Definition py_range (a b : Z) : list Z :=
  map (fun k => (a + Z.of_nat k)%Z) (seq 0 (Z.to_nat (b - a))).

(** [any(test(i) for i in ...)]: stops at the first true test, and an
    exception raised by a test on the way propagates. *)
Fixpoint py_any (tests : list (result bool)) : result bool :=
  match tests with
  | [] => Ok false
  | Raise e :: _ => Raise e
  | Ok true :: _ => Ok true
  | Ok false :: rest => py_any rest
  end.

(** [utils.fit_line(x, y)] is not under src/: it is a parameter of the
    detector.  It returns the coefficients [p] of the fitted line
    ([p[0]] the slope, [p[1]] the intercept) and the residual. *)
Definition fitter : Type := list Q -> list Q -> (Q * Q) * Q.

(** [tdc_plot.constants], converted to the unit of the CAP channel. *)
Record tdc_constants : Type := mkConstants {
  max_delta_cap : Q;
  initial_cap : Q;
  max_slope : Q;
  N_fit_min : Z;
  N_fit_max : Z;
  N_window : Z
}.

(** What [check_for_td] reads from the [plots.TDCPlot] instance. *)
Record tdc_plot : Type := mkPlot {
  constants : tdc_constants;
  prefactor_CAP : Q;        (* tdc_plot.prefactors['CAP'], CAP unit per volt *)
  data : list Q;            (* tdc_plot.data[:, 0, 0] *)
  heights : list Q          (* tdc_plot.heights *)
}.

Inductive plot_event : Type :=
| PlotLine (x : list Q) (p : Q * Q)      (* ax.plot(x, p[0] * x + p[1], 'r-') *)
| SetTitle (height : Q)                  (* ax.set_title('Touchdown: {:.4} V') *)
| CanvasDraw                             (* fig.canvas.draw() *)
| FigShow.                               (* fig.show() *)

(** What [check_for_td] writes: attributes of the scanner and of the plot,
    the drawing calls and the log. *)
Record td_state : Type := mkTd {
  td_has_occurred : bool;          (* self.td_has_occurred *)
  td_height : option Q;            (* self.td_height *)
  plot_td_height : option Q;       (* tdc_plot.td_height *)
  pre_td_slope : option Q;         (* tdc_plot.pre_td_slope *)
  post_td_slope : option Q;        (* tdc_plot.post_td_slope *)
  drawn : list plot_event;
  td_logs : list (level * log_msg)
}.

Definition td_reset : MS td_state unit :=
  fun st => (Ok tt, mkTd false None (plot_td_height st) (pre_td_slope st)
                         (post_td_slope st) (drawn st) (td_logs st)).

Definition td_log (l : level) (m : log_msg) : MS td_state unit :=
  fun st => (Ok tt, mkTd (td_has_occurred st) (td_height st) (plot_td_height st)
                         (pre_td_slope st) (post_td_slope st) (drawn st)
                         (td_logs st ++ [(l, m)])).

Definition td_draw (evs : list plot_event) : MS td_state unit :=
  fun st => (Ok tt, mkTd (td_has_occurred st) (td_height st) (plot_td_height st)
                         (pre_td_slope st) (post_td_slope st) (drawn st ++ evs)
                         (td_logs st)).

(** The assignments of the detection branch. *)
Definition td_detected (h s0 s1 : Q) : MS td_state unit :=
  fun st => (Ok tt, mkTd true (Some h) (Some h) (Some s0) (Some s1) (drawn st) (td_logs st)).

(** The assignments of the range-exhausted branch. *)
Definition td_clear_plot : MS td_state unit :=
  fun st => (Ok tt, mkTd (td_has_occurred st) (td_height st) None None None
                         (drawn st) (td_logs st)).

Definition td_get_occurred : MS td_state bool :=
  fun st => (Ok (td_has_occurred st), st).

(** [abs(cdata[pt-i] - initial_cap) > max_deltaC]. *)
Definition unbalanced (c : tdc_constants) (cdata : list Q) (pt : Z) (i : Z) : result bool :=
  match py_index cdata (pt - i) with
  | Raise e => Raise e
  | Ok v => Ok (Qltb (max_delta_cap c) (Qabs (v - initial_cap c)))
  end.

(** [abs(cdata[pt-i] * ureg(cap_unit) / prefactor) > Q_('5 V')].  A zero
    prefactor makes numpy divide to [inf], or to [nan] for a zero sample. *)
Definition rails (prefactor v : Q) : bool :=
  if Qeq_bool prefactor 0 then negb (Qeq_bool v 0)
  else Qltb 5 (Qabs (v / prefactor)).

Definition railing (prefactor : Q) (cdata : list Q) (pt : Z) (i : Z) : result bool :=
  match py_index cdata (pt - i) with
  | Raise e => Raise e
  | Ok v => Ok (rails prefactor v)
  end.

(** The safety checks under [if pt > 1]; [true] stands for [return True]. *)
Definition safety_checks (plot : tdc_plot) (cdata : list Q) (pt : Z) : MS td_state bool :=
  u <- lift (py_any (map (unbalanced (constants plot) cdata pt) (py_range 0 2))) ;;
  if u then td_log WARNING Msg_unbalanced ;;; ret true
  else
    r <- lift (py_any (map (railing (prefactor_CAP plot) cdata pt) (py_range 0 2))) ;;
    if r then td_log WARNING Msg_railing ;;; ret true
    else ret false.

(** [rms < rmsmin], where [rmsmin] starts at [np.inf] ([None]). *)
Definition below (rms : Q) (rmsmin : option Q) : bool :=
  match rmsmin with
  | None => true
  | Some m => Qltb rms m
  end.

(** The residual of the split at [i]: the left segment
    [pt-nwindow : i+1] and the right segment [i:]. *)
Definition split_rms (fit_line : fitter) (hdata cdata : list Q) (pt nwindow i : Z) : Q :=
  let rms0 := snd (fit_line (py_slice hdata (Some (pt - nwindow)%Z) (Some (i + 1)%Z))
                            (py_slice cdata (Some (pt - nwindow)%Z) (Some (i + 1)%Z))) in
  let rms1 := snd (fit_line (py_slice hdata (Some i) None) (py_slice cdata (Some i) None)) in
  rms0 + rms1.

(** The loop [for i in range(pt - nwindow + nfitmin, pt - nfitmin)]. *)
Fixpoint search_split (fit_line : fitter) (hdata cdata : list Q) (pt nwindow : Z)
    (cands : list Z) (imin : Z) (rmsmin : option Q) : Z * option Q :=
  match cands with
  | [] => (imin, rmsmin)
  | i :: rest =>
      let rms := split_rms fit_line hdata cdata pt nwindow i in
      if below rms rmsmin
      then search_split fit_line hdata cdata pt nwindow rest i (Some rms)
      else search_split fit_line hdata cdata pt nwindow rest imin rmsmin
  end.

Definition candidates (c : tdc_constants) (pt : Z) : list Z :=
  py_range (pt - N_window c + N_fit_min c) (pt - N_fit_min c).

(** The partition boundary [imin] after the loop. *)
Definition selected_split (fit_line : fitter) (plot : tdc_plot) (pt : Z) : Z :=
  let c := constants plot in
  let cdata := py_slice (data plot) None (Some (pt + 1)%Z) in
  let hdata := py_slice (heights plot) None (Some (pt + 1)%Z) in
  fst (search_split fit_line hdata cdata pt (N_window c) (candidates c pt)
                    (pt - N_window c + N_fit_min c)%Z None).

(** [p0]: the line fitted to the segment before the selected split. *)
Definition pre_fit (fit_line : fitter) (plot : tdc_plot) (pt : Z) : Q * Q :=
  let cdata := py_slice (data plot) None (Some (pt + 1)%Z) in
  let hdata := py_slice (heights plot) None (Some (pt + 1)%Z) in
  let imin := selected_split fit_line plot pt in
  fst (fit_line (py_slice hdata (Some (pt - N_window (constants plot))%Z) (Some (imin + 1)%Z))
                (py_slice cdata (Some (pt - N_window (constants plot))%Z) (Some (imin + 1)%Z))).

(** [p1]: the line fitted to the segment from the selected split on. *)
Definition post_fit (fit_line : fitter) (plot : tdc_plot) (pt : Z) : Q * Q :=
  let cdata := py_slice (data plot) None (Some (pt + 1)%Z) in
  let hdata := py_slice (heights plot) None (Some (pt + 1)%Z) in
  let imin := selected_split fit_line plot pt in
  fst (fit_line (py_slice hdata (Some imin) None) (py_slice cdata (Some imin) None)).

(** The block under [if pt < len(tdc_plot.heights) and pt > nwindow + 10];
    [true] stands for [return True]. *)
Definition changepoint (fit_line : fitter) (plot : tdc_plot) (pt : Z) : MS td_state bool :=
  let hdata := py_slice (heights plot) None (Some (pt + 1)%Z) in
  let imin := selected_split fit_line plot pt in
  let x0 := py_slice hdata (Some (pt - N_window (constants plot))%Z) (Some (imin + 1)%Z) in
  let p0 := pre_fit fit_line plot pt in
  let x1 := py_slice hdata (Some imin) None in
  let p1 := post_fit fit_line plot pt in
  td_draw [PlotLine x0 p0; PlotLine x1 p1] ;;;
  if Qltb (max_slope (constants plot)) (Qabs (fst p0))
  then td_log WARNING (Msg_pre_slope (fst p0)) ;;; ret true
  else
    (if Qltb (max_slope (constants plot)) (Qabs (fst p0 - fst p1))
     then
       let h := (snd p1 - snd p0) / (fst p0 - fst p1) in
       td_detected h (fst p0) (fst p1) ;;;
       td_draw [PlotLine x1 p1; SetTitle h] ;;;
       td_log INFO (Msg_touchdown h)
     else ret tt) ;;;
    td_draw [CanvasDraw; FigShow] ;;;
    ret false.

Definition search_runs (plot : tdc_plot) (pt : Z) : bool :=
  (pt <? Z.of_nat (List.length (heights plot)))%Z
  && (N_window (constants plot) + 10 <? pt)%Z.

(** [Scanner.check_for_td], called with [counter.count = pt]. *)
Definition check_for_td (fit_line : fitter) (plot : tdc_plot) (pt : Z) : MS td_state bool :=
  td_reset ;;;
  let cdata := py_slice (data plot) None (Some (pt + 1)%Z) in
  stop <- (if (1 <? pt)%Z then safety_checks plot cdata pt else ret false) ;;
  if stop then ret true
  else
    stop <- (if search_runs plot pt then changepoint fit_line plot pt else ret false) ;;
    if stop then ret true
    else if (Z.of_nat (List.length (heights plot)) <=? pt)%Z
         then td_log INFO Msg_no_touchdown ;;; td_clear_plot ;;; ret true
         else td_get_occurred.

(** Modelled from the spec: the stepping loop that drives the detector is
    not under src/.  It calls the detector once per step and stops stepping
    at the first terminal outcome (a True verdict, or an exception).  The
    result lists the steps evaluated, each with its outcome. *)
Fixpoint td_loop (fit_line : fitter) (plot : tdc_plot) (pts : list Z) (st : td_state)
    : list (Z * result bool) * td_state :=
  match pts with
  | [] => ([], st)
  | pt :: rest =>
      match check_for_td fit_line plot pt st with
      | (Ok false, st') =>
          let (tr, st'') := td_loop fit_line plot rest st' in
          ((pt, Ok false) :: tr, st'')
      | (r, st') => ([(pt, r)], st')
      end
  end.

(** Modelled from the spec: [utils.fit_line] as the closed-form least-squares
    line through the points and the sum of the squared residuals. *)
Definition qsum (l : list Q) : Q := fold_right Qplus 0 l.

Definition zip_with (f : Q -> Q -> Q) (xs ys : list Q) : list Q :=
  map (fun xy => f (fst xy) (snd xy)) (combine xs ys).

Definition lsq_fit_line : fitter := fun xs ys =>
  let n := inject_Z (Z.of_nat (List.length xs)) in
  let sx := qsum xs in
  let sy := qsum ys in
  let sxx := qsum (zip_with Qmult xs xs) in
  let sxy := qsum (zip_with Qmult xs ys) in
  let slope := (n * sxy - sx * sy) / (n * sxx - sx * sx) in
  let icpt := (sy - slope * sx) / n in
  let res := qsum (zip_with (fun x y => (y - (slope * x + icpt)) * (y - (slope * x + icpt))) xs ys) in
  ((slope, icpt), res).

(** ** Specification-side definitions *)

(** The calls that touch the analog outputs. *)
Definition is_ao_call (ev : hw_event) : bool :=
  match ev with
  | TaskOpen name | TaskClose name => String.eqb name "goto_ao_task"
  | AddAO _ | CfgTiming _ _ | WriteAO _ | Start | WaitUntilDone => true
  | AddAI _ | ReadAI _ => false
  end.

Definition ao_calls (h : list hw_event) : list hw_event := filter is_ao_call h.

(** The ramps written to the analog outputs, oldest first. *)
Definition ramps_written (h : list hw_event) : list (list (list Q)) :=
  flat_map (fun ev => match ev with WriteAO r => [r] | _ => [] end) h.

(** The position a ramp ends at: the last sample of each row. *)
Definition last_sample (ramp : list (list Q)) : option pos :=
  match ramp with
  | [(_ :: _) as rx; (_ :: _) as ry; (_ :: _) as rz] =>
      Some (mkpos (last rx 0) (last ry 0) (last rz 0))
  | _ => None
  end.


(** The position the analog outputs were last commanded to. *)
Definition commanded (h : list hw_event) : option pos :=
  match rev (ramps_written h) with
  | [] => None
  | r :: _ => last_sample r
  end.

(** A value outside the limits of an axis in the active temperature mode:
    below the smallest limit or above the largest. *)
Definition out_of_range (s : scanner) (new_pos : pos) (ax : axis) : Prop :=
  exists lo hi,
    py_min (sorted (voltage_limits s (temp s) ax)) = Some lo /\
    py_max (sorted (voltage_limits s (temp s) ax)) = Some hi /\
    (nth_ax new_pos ax < lo \/ hi < nth_ax new_pos ax).

(** The axes the validation loop visits before [ax]. *)
Definition earlier_axes (ax : axis) : list axis :=
  match ax with X => [] | Y => [X] | Z_ax => [X; Y] end.

(** Limits are present for every axis of the active mode, as they are after
    construction. *)
Definition limits_present (s : scanner) : Prop :=
  forall ax, voltage_limits s (temp s) ax <> [].

(** The verdict of the safety checks at step [pt]: [Ok true] when they make
    [check_for_td] return True, [Ok false] when they let it go on (or are
    skipped, for [pt <= 1]). *)
Definition safety_verdict (plot : tdc_plot) (pt : Z) : result bool :=
  let cdata := py_slice (data plot) None (Some (pt + 1)%Z) in
  if (1 <? pt)%Z then
    match py_any (map (unbalanced (constants plot) cdata pt) (py_range 0 2)) with
    | Ok false => py_any (map (railing (prefactor_CAP plot) cdata pt) (py_range 0 2))
    | r => r
    end
  else Ok false.

(** The warning the safety checks log when they fire. *)
Definition safety_warning (plot : tdc_plot) (pt : Z) : log_msg :=
  match py_any (map (unbalanced (constants plot)
                       (py_slice (data plot) None (Some (pt + 1)%Z)) pt)
                    (py_range 0 2)) with
  | Ok true => Msg_unbalanced
  | _ => Msg_railing
  end.

(** The converted signal [v / prefactor] is beyond the 5 V bound. *)
Definition saturated (prefactor v : Q) : Prop :=
  if Qeq_bool prefactor 0 then ~ v == 0 else 5 < Qabs (v / prefactor).

(** The signal sample of index [k]. *)
Definition sample (plot : tdc_plot) (k : Z) : Q := nth (Z.to_nat k) (data plot) 0.


(** The samples [l[a]], ..., [l[b-1]] of a buffer. *)
Definition segment (l : list Q) (a b : Z) : list Q :=
  map (fun k => nth k l 0) (seq (Z.to_nat a) (Z.to_nat (b - a))).

(** The plot with another value of [N_fit_max]. *)
Definition with_N_fit_max (plot : tdc_plot) (m : Z) : tdc_plot :=
  let c := constants plot in
  mkPlot (mkConstants (max_delta_cap c) (initial_cap c) (max_slope c)
                      (N_fit_min c) m (N_window c))
         (prefactor_CAP plot) (data plot) (heights plot).

(** The line of slope [a] and intercept [b]. *)
Definition line (a b h : Q) : Q := a * h + b.

(** A flat series: over the planned range the signal is one line of the
    height.  The buffer may hold samples beyond the planned range. *)
Definition flat_series (plot : tdc_plot) (a b : Q) : Prop :=
  exists extra, data plot = map (line a b) (heights plot) ++ extra.

(** No two heights are equal. *)
Definition distinct_heights (l : list Q) : Prop :=
  forall i j, (i < j < List.length l)%nat -> ~ nth i l 0 == nth j l 0.

Definition two_distinct (xs : list Q) : Prop :=
  exists x y, In x xs /\ In y xs /\ ~ x == y.

(** What the detector needs of [fit_line] on a flat series: points of one
    line, at two different abscissae or more, are fitted with the slope of
    that line. *)
Definition exact_on_lines (fit_line : fitter) : Prop :=
  forall xs a b, two_distinct xs -> fst (fst (fit_line xs (map (line a b) xs))) == a.

(** Quantities of the least-squares fit: the number of points, the spread
    [n * sum(x^2) - sum(x)^2] of the abscissae, and the squared deviations
    of a list from one value. *)
Definition qlen (l : list Q) : Q := inject_Z (Z.of_nat (List.length l)).

Definition spread (xs : list Q) : Q :=
  qlen xs * qsum (zip_with Qmult xs xs) - qsum xs * qsum xs.

Definition sq_dev (x : Q) (l : list Q) : Q :=
  qsum (map (fun y => (x - y) * (x - y)) l).

(** ** Sample objects *)

Definition demo_limits (tm : temp_mode) (ax : axis) : list Q :=
  match tm with
  | RT => [-10; 10]
  | LT => [-(5 # 2); 5]
  end.

Definition demo_config : scanner_config :=
  mkConfig 10 (fun tm => match tm with RT => -10 | LT => -(5 # 2) end) 1 demo_limits.

Definition demo_scanner : scanner := parse_unitful_quantities demo_config LT.

Definition demo_world : world :=
  mkWorld [] (fun _ => mkpos (1 # 3) 0 (-1)) 0 [] None.






Definition demo_constants : tdc_constants := mkConstants 100 0 1 2 4 6.

Definition demo_heights : list Q := map (fun k => inject_Z (Z.of_nat k)) (seq 0 20).

(** A signal that is zero up to height 14 and rises with slope 2 from there. *)
Definition kink_plot : tdc_plot :=
  mkPlot demo_constants 100
         (map (fun h => if Qle_bool h 14 then 0 else 2 * (h - 14)) demo_heights)
         demo_heights.

(** A signal of slope 3 throughout. *)
Definition steep_plot : tdc_plot :=
  mkPlot demo_constants 100 (map (fun h => 3 * h) demo_heights) demo_heights.

(** Two samples, the second one far from the initial value. *)
Definition jump_plot : tdc_plot :=
  mkPlot demo_constants 100 [0; 1000] demo_heights.

(** A signal of slope 1/2 over the planned range, one sample per height. *)
Definition flat_plot_exact : tdc_plot :=
  mkPlot demo_constants 100 (map (line (1 # 2) 1) demo_heights) demo_heights.

(** The kinked signal with a window of 6 points and fits of 3 points at
    least: the candidate range [range(pt - 6 + 3, pt - 3)] is empty. *)
Definition narrow_plot : tdc_plot :=
  mkPlot (mkConstants 100 0 1 3 4 6) 100 (data kink_plot) demo_heights.

Definition demo_td_state : td_state := mkTd false None (Some 7) None None [] [].

(** The sample count of a ramp in exact arithmetic:
    [floor(max_axis_displacement / speed * sample_rate) + 2]. *)
Definition planned_count (s : scanner) (pos0 pos1 : pos) (spd : Q) : Z :=
  (Qfloor (max_ramp_distance pos0 pos1 / spd * daq_rate s) + 2)%Z.

(** ** Further operations of the driver *)

(** [Scanner._goto_x], [_goto_y], [_goto_z]: the setters of [position_x],
    [position_y], [position_z].  The other two axes are held at the values
    just read; the move is logged quietly. *)
Definition _goto_x (s : scanner) (xpos : Q) : M unit :=
  current_pos <- get_pos ;;
  goto s (mkpos xpos (py current_pos) (pz current_pos)) false None true.

Definition _goto_y (s : scanner) (ypos : Q) : M unit :=
  current_pos <- position ;;
  goto s (mkpos (px current_pos) ypos (pz current_pos)) false None true.

Definition _goto_z (s : scanner) (zpos : Q) : M unit :=
  current_pos <- position ;;
  goto s (mkpos (px current_pos) (py current_pos) zpos) false None true.

(** [l[k]] on a sequence of any kind. *)
Definition py_item {A : Type} (l : list A) (k : Z) : result A :=
  let len := Z.of_nat (List.length l) in
  let k' := if (k <? 0)%Z then (k + len)%Z else k in
  if (k' <? 0)%Z || (len <=? k')%Z then Raise IndexError
  else match nth_error l (Z.to_nat k') with
       | Some a => Ok a
       | None => Raise IndexError
       end.

(** [scan_grids] from [utils.make_scan_grids]: for each of the axes x, y, z
    a 2-D array indexed by line and sample. *)
Definition scan_grids : Type := axis -> list (list Q).

(** [scan_grids[axis][line][0]]. *)
Definition grid_start (g : scan_grids) (line : Z) (ax : axis) : result Q :=
  match py_item (g ax) line with
  | Raise e => Raise e
  | Ok row => py_item row 0
  end.

(** [[scan_grids[axis][line+1][0] for axis in ['x', 'y', 'z']]]. *)
Definition start_of_line (g : scan_grids) (line : Z) : result pos :=
  match grid_start g line X with
  | Raise e => Raise e
  | Ok x =>
      match grid_start g line Y with
      | Raise e => Raise e
      | Ok y =>
          match grid_start g line Z_ax with
          | Raise e => Raise e
          | Ok z => Ok (mkpos x y z)
          end
      end
  end.

(** [try: ... except IndexError: pass]. *)
Definition except_IndexError (m : M unit) : M unit :=
  fun w => match m w with
           | (Raise IndexError, w') => (Ok tt, w')
           | r => r
           end.

(** [Scanner.goto_start_of_next_line], with [counter.count = line]. *)
Definition goto_start_of_next_line (s : scanner) (g : scan_grids) (line : Z) : M unit :=
  except_IndexError
    (start_of_next_line <- lift (start_of_line g (line + 1)) ;;
     goto s start_of_next_line false None true).

(** Setting the qcodes parameter [position], as [Microscope.goto] does with
    [self.scanner.position(new_position)]: the value is first checked by the
    validator [vals.Lists(elt_validator=vals.Numbers(min(v_limits),
    max(v_limits)))] built in [_initialize_parameters], then handed to the
    [set_cmd], [Scanner.goto].  [Invalid] is the ValueError of the
    validator; [Called] carries what [goto] did. *)
Inductive set_outcome : Type :=
| Invalid (value lo hi : Q)
| Called (r : result unit).

Definition v_limits (s : scanner) : list Q := flat_map (voltage_limits s (temp s)) axes.

(** [Numbers.validate] on the elements in turn: the first one that is not
    within [lo <= value <= hi]. *)
Fixpoint first_invalid (lo hi : Q) (values : list Q) : option Q :=
  match values with
  | [] => None
  | v :: rest => if Qle_bool lo v && Qle_bool v hi then first_invalid lo hi rest else Some v
  end.

Definition position_set (s : scanner) (new_position : pos) : world -> set_outcome * world :=
  fun w =>
    match py_min (v_limits s), py_max (v_limits s) with
    | Some lo, Some hi =>
        match first_invalid lo hi (map (nth_ax new_position) axes) with
        | Some v => (Invalid v lo hi, w)
        | None => let (r, w') := goto s new_position false None false w in (Called r, w')
        end
    | _, _ => (Called (Raise ValueError_empty), w)
    end.

(** [Microscope.goto]. *)
Definition Microscope_goto (s : scanner) (new_position : pos) : world -> set_outcome * world :=
  position_set s new_position.

(** The analog-output task of a scan line: the calls made on
    [self.ao_task] since [scan_line] created it. *)
Inductive task_call : Type :=
| Add_ao_chan (ax : axis) (idx : Z)            (* ao_channels.add_ao_voltage_chan *)
| Cfg_finite (rate : Q) (samps_per_chan : nat) (* timing.cfg_samp_clk_timing, FINITE *)
| Write_queued (out : list (list Q))           (* write(np.array(out), auto_start=False) *)
| Method (cmd : string).                       (* getattr(self.ao_task, cmd)() *)

Record line_state : Type := mkLine {
  ao_task : option (list task_call);   (* None: the scanner has no attribute ao_task *)
  lines_logged : list Z                (* 'Writing line {}.' *)
}.

Definition new_ao_task : MS line_state unit :=
  fun st => (Ok tt, mkLine (Some []) (lines_logged st)).

Definition on_ao_task (c : task_call) : MS line_state unit :=
  fun st => (Ok tt, mkLine (match ao_task st with
                            | Some calls => Some (calls ++ [c])
                            | None => None
                            end) (lines_logged st)).

Definition log_line (line : Z) : MS line_state unit :=
  fun st => (Ok tt, mkLine (ao_task st) (lines_logged st ++ [line])).

(** [row[::step]] with [step] 1 or -1. *)
Definition directed (reverse : bool) (row : list Q) : list Q :=
  if reverse then rev row else row.

(** The loop [for axis, idx in ao_channels.items()]. *)
Fixpoint queue_channels (g : scan_grids) (line : Z) (reverse : bool)
    (chans : list (axis * Z)) (out : list (list Q)) : MS line_state (list (list Q)) :=
  match chans with
  | [] => ret out
  | (ax, idx) :: rest =>
      row <- lift (py_item (g ax) line) ;;
      on_ao_task (Add_ao_chan ax idx) ;;;
      queue_channels g line reverse rest (out ++ [directed reverse row])
  end.

(** [Scanner.scan_line], with [counter.count = line]. *)
Definition scan_line (g : scan_grids) (ao_channels : list (axis * Z)) (rate : Q)
    (line : Z) (reverse : bool) : MS line_state unit :=
  new_ao_task ;;;
  out <- queue_channels g line reverse ao_channels [] ;;
  first <- lift (py_item out 0) ;;
  on_ao_task (Cfg_finite rate (List.length first)) ;;;
  log_line line ;;;
  on_ao_task (Write_queued out).

(** [Scanner.control_ao_task]. *)
Definition control_ao_task (cmd : string) : MS line_state unit :=
  fun st => match ao_task st with
            | Some _ => on_ao_task (Method cmd) st
            | None => (Ok tt, st)
            end.

(** The setter of an axis, the position with one axis replaced, and the row
    of an axis in a ramp. *)
Definition axis_setter (ax : axis) : scanner -> Q -> M unit :=
  match ax with X => _goto_x | Y => _goto_y | Z_ax => _goto_z end.

Definition with_axis (p : pos) (ax : axis) (v : Q) : pos :=
  match ax with
  | X => mkpos v (py p) (pz p)
  | Y => mkpos (px p) v (pz p)
  | Z_ax => mkpos (px p) (py p) v
  end.


(** ** [Microscope.get_prefactors]

    The prefactors are pint quantities; the model keeps their magnitudes.
    The dictionary lookups and the lock-in snapshots the function makes are
    taken to succeed.  [mod_width] is the modulation width of the SQUID,
    [susc_amp] the amplitude the SUSC lock-in reports, and a channel is its
    name with its gain. *)

Inductive prefactor_error : Type :=
| NameError_sensitivity     (* name 'sensitivity' is not defined *)
| ZeroDivisionError.

Inductive prefactor_result (A : Type) : Type :=
| Computed (a : A)
| Failed (e : prefactor_error).

Arguments Computed {A} a.
Arguments Failed {A} e.

(** [a / b] on Python numbers. *)
Definition py_div (a b : Q) : prefactor_result Q :=
  if Qeq_bool b 0 then Failed ZeroDivisionError else Computed (a / b).

Definition is_susc (ch : string) : bool :=
  String.eqb ch "SUSCX" || String.eqb ch "SUSCY".

(** The body of the loop for one channel.  In the SUSC branch
    [(r_lead / amp)] is evaluated before the unbound name [sensitivity] is
    looked up; in the CAP branch the name is looked up at once. *)
Definition channel_prefactor (mod_width susc_amp : Q) (ch : string) (gain : Q)
    : prefactor_result Q :=
  let after_kind :=
    if String.eqb ch "MAG" then py_div 1 mod_width
    else if is_susc ch then
      (if Qeq_bool susc_amp 0 then Failed ZeroDivisionError
       else Failed NameError_sensitivity)
    else Computed 1 in
  match after_kind with
  | Failed e => Failed e
  | Computed prefactor =>
      if String.eqb ch "CAP" then Failed NameError_sensitivity
      else py_div prefactor gain
  end.

(** [prefactors.update({ch: prefactor})]. *)
Fixpoint dict_update (d : list (string * Q)) (k : string) (v : Q) : list (string * Q) :=
  match d with
  | [] => [(k, v)]
  | (k', v') :: r => if String.eqb k' k then (k', v) :: r else (k', v') :: dict_update r k v
  end.

Fixpoint prefactors_loop (mod_width susc_amp : Q) (channels : list (string * Q))
    (prefactors : list (string * Q)) : prefactor_result (list (string * Q)) :=
  match channels with
  | [] => Computed prefactors
  | (ch, gain) :: rest =>
      match channel_prefactor mod_width susc_amp ch gain with
      | Failed e => Failed e
      | Computed p => prefactors_loop mod_width susc_amp rest (dict_update prefactors ch p)
      end
  end.

Definition get_prefactors (mod_width susc_amp : Q) (channels : list (string * Q))
    : prefactor_result (list (string * Q)) :=
  prefactors_loop mod_width susc_amp channels [].

(** * Properties *)

(** ** Arithmetic helpers *)

Lemma Qltb_lt (a b : Q) : Qltb a b = true <-> a < b.
Proof.
  unfold Qltb. rewrite negb_true_iff. split.
  - intros H. apply Qnot_le_lt. intros Hle.
    apply Qle_bool_iff in Hle. congruence.
  - intros H. destruct (Qle_bool b a) eqn:E; [|reflexivity].
    apply Qle_bool_iff in E. exfalso. apply (Qlt_not_le _ _ H E).
Qed.

Lemma Qltb_ge (a b : Q) : Qltb a b = false <-> b <= a.
Proof.
  unfold Qltb. rewrite negb_false_iff. apply Qle_bool_iff.
Qed.

Lemma py_int_floor (q : Q) : 0 <= q -> py_int q = Qfloor q.
Proof.
  destruct q as [n d]. unfold py_int, Qfloor, Qle. simpl. intros H.
  apply Z.quot_div_nonneg; lia.
Qed.

Lemma nth_map_seq {A} (f : nat -> A) (a n k : nat) (d : A) :
  (k < n)%nat -> nth k (map f (seq a n)) d = f (a + k)%nat.
Proof.
  intros Hk.
  rewrite (nth_indep _ d (f 0%nat)) by (rewrite length_map, length_seq; exact Hk).
  rewrite map_nth, seq_nth by exact Hk. reflexivity.
Qed.

(** ** [linspace] *)

Section Linspace.

Variables (start stop : Q) (num : Z).
Hypothesis Hnum : (2 <= num)%Z.

Let step : Q := (stop - start) / inject_Z (num - 1).
Let y : list Q :=
  map (fun i => inject_Z (Z.of_nat i) * step + start) (seq 0 (Z.to_nat num)).







End Linspace.



(** ** Double precision

    Rounding to the nearest double keeps the order, leaves a double as it
    is, and is symmetric about zero. *)











































(** ** [make_ramp] *)

Lemma max_ramp_distance_nonneg (pos0 pos1 : pos) : 0 <= max_ramp_distance pos0 pos1.
Proof.
  unfold max_ramp_distance.
  apply Qle_trans with (Qabs (px pos1 - px pos0)).
  - apply Qabs_nonneg.
  - apply Q.le_max_l.
Qed.




Lemma planned_count_mono (s : scanner) (pos0 pos1 : pos) (spd spd' : Q) :
  0 <= daq_rate s -> / spd' <= / spd ->
  (planned_count s pos0 pos1 spd' <= planned_count s pos0 pos1 spd)%Z.
Proof.
  intros Hr Hinv. unfold planned_count.
  apply Z.add_le_mono_r, Qfloor_resp_le.
  apply Qmult_le_compat_r; [|exact Hr].
  unfold Qdiv. rewrite !(Qmult_comm (max_ramp_distance pos0 pos1)).
  apply Qmult_le_compat_r; [exact Hinv|apply max_ramp_distance_nonneg].
Qed.









Lemma ramp_npts_double (s : scanner) (d spd t n : Q) :
  ~ spd == 0 ->
  round_double (d / spd) = Finite t ->
  round_double (t * daq_rate s) = Finite n ->
  Float64.ramp_npts s (Finite d) spd = Ok (py_int n + 2)%Z.
Proof.
  intros Hs Ht Hn. unfold Float64.ramp_npts. cbn [Float64.div].
  destruct (Qeq_bool spd 0) eqn:E; [apply Qeq_bool_iff in E; contradiction|].
  rewrite Ht. cbn [Float64.mul]. rewrite Hn. reflexivity.
Qed.




Lemma py_int_comp (x y : Q) : x == y -> py_int x = py_int y.
Proof.
  intros E. destruct (Qlt_le_dec x 0) as [Hx|Hx].
  - assert (Hy : y < 0) by (rewrite <- E; exact Hx).
    assert (N : forall q, q < 0 -> py_int q = (- Qfloor (- q))%Z).
    { intros [n d] Hq. unfold py_int, Qfloor, Qopp, Qlt in *. simpl in *.
      replace n with (- (- n))%Z at 1 by lia.
      rewrite Z.quot_opp_l by lia. rewrite Z.quot_div_nonneg by lia. reflexivity. }
    rewrite (N x Hx), (N y Hy). f_equal. apply Qfloor_comp. rewrite E. reflexivity.
  - rewrite !py_int_floor; [apply Qfloor_comp; exact E|rewrite <- E; exact Hx|exact Hx].
Qed.

(** Where neither the quotient nor the product is rounded, the count in
    double precision is the count in exact arithmetic. *)
Lemma ramp_npts_unrounded (s : scanner) (d spd t n : Q) :
  ~ spd == 0 ->
  round_double (d / spd) = Finite t -> t == d / spd ->
  round_double (t * daq_rate s) = Finite n -> n == t * daq_rate s ->
  Float64.ramp_npts s (Finite d) spd = ramp_npts s d spd.
Proof.
  intros Hs Ht Et Hn En.
  rewrite (ramp_npts_double s d spd t n Hs Ht Hn). unfold ramp_npts.
  destruct (Qeq_bool spd 0) eqn:E; [apply Qeq_bool_iff in E; contradiction|].
  f_equal. f_equal. apply py_int_comp. rewrite En, Et. reflexivity.
Qed.




(** C7.  [make_ramp] does not clamp: with a maximum speed of 1 V/s and a
    rate of 10 Hz, a ramp over 1 V requested at 2 V/s logs the warning
    'Setting ramp speed to maximum allowed' and still has the 7 samples of a
    ramp at 2 V/s, where the ramp at the maximum speed has 12. *)
Theorem make_ramp_speed_not_clamped :
  exists rows w' rows_max w_max,
    make_ramp demo_scanner origin (mkpos 1 0 0) 2 demo_world = (Ok rows, w') /\
    logs w' = [(WARNING, Msg_max_speed 1)] /\
    map (@List.length Q) rows = [7; 7; 7]%nat /\
    make_ramp demo_scanner origin (mkpos 1 0 0) (speed demo_scanner) demo_world
    = (Ok rows_max, w_max) /\
    map (@List.length Q) rows_max = [12; 12; 12]%nat.
Proof.
  do 4 eexists. split; [vm_compute; reflexivity|].
  split; [reflexivity|]. split; [reflexivity|].
  split; [vm_compute; reflexivity|reflexivity].
Qed.

(** ** [goto]: validation *)

Lemma insert_sorted_length (x : Q) (l : list Q) :
  List.length (insert_sorted x l) = S (List.length l).
Proof.
  induction l as [|y r IH]; simpl; [reflexivity|].
  destruct (Qltb x y); simpl; [reflexivity|now rewrite IH].
Qed.

Lemma sorted_length (l : list Q) : List.length (sorted l) = List.length l.
Proof.
  unfold sorted.
  assert (H : forall acc,
             List.length (fold_left (fun acc x => insert_sorted x acc) l acc)
             = (List.length l + List.length acc)%nat).
  { induction l as [|x r IH]; intros acc; simpl; [reflexivity|].
    rewrite IH, insert_sorted_length. lia. }
  rewrite H. simpl. lia.
Qed.

Lemma sorted_nonempty (l : list Q) : l <> [] -> sorted l <> [].
Proof.
  intros H E. apply (f_equal (@List.length Q)) in E.
  rewrite sorted_length in E. destruct l; [congruence|discriminate].
Qed.

(** The test of the validation loop on one axis. *)
Lemma check_limits_cons (s : scanner) (new_pos : pos) (ax : axis) (rest : list axis) :
  voltage_limits s (temp s) ax <> [] ->
  (out_of_range s new_pos ax /\
   check_limits s new_pos (ax :: rest)
   = Raise (ValueError_range ax (sorted (voltage_limits s (temp s) ax))))
  \/ (~ out_of_range s new_pos ax /\
      check_limits s new_pos (ax :: rest) = check_limits s new_pos rest).
Proof.
  intros Hne. apply sorted_nonempty in Hne.
  unfold out_of_range. simpl.
  destruct (sorted (voltage_limits s (temp s) ax)) as [|x r] eqn:E; [congruence|].
  simpl.
  destruct (Qltb (nth_ax new_pos ax) (py_min_from x r)) eqn:E1.
  - left. split; [|reflexivity].
    exists (py_min_from x r), (py_max_from x r).
    repeat split. left. now apply Qltb_lt.
  - destruct (Qltb (py_max_from x r) (nth_ax new_pos ax)) eqn:E2; simpl.
    + left. split; [|reflexivity].
      exists (py_min_from x r), (py_max_from x r).
      repeat split. right. now apply Qltb_lt.
    + right. split; [|reflexivity].
      intros (lo & hi & Hlo & Hhi & Hout).
      injection Hlo as <-. injection Hhi as <-.
      apply Qltb_ge in E1, E2.
      destruct Hout as [H|H]; [apply (Qlt_not_le _ _ H E1)|apply (Qlt_not_le _ _ H E2)].
Qed.

(** The loop raises for the first axis, in the order x, y, z, whose value is
    out of range, and passes when there is none. *)
Lemma check_limits_spec (s : scanner) (new_pos : pos) (axs : list axis) :
  limits_present s ->
  (exists pre ax post,
     axs = pre ++ ax :: post /\
     (forall a, In a pre -> ~ out_of_range s new_pos a) /\
     out_of_range s new_pos ax /\
     check_limits s new_pos axs
     = Raise (ValueError_range ax (sorted (voltage_limits s (temp s) ax))))
  \/ ((forall a, In a axs -> ~ out_of_range s new_pos a) /\
      check_limits s new_pos axs = Ok tt).
Proof.
  intros Hp. induction axs as [|ax rest IH].
  - right. split; [intros a []|reflexivity].
  - destruct (check_limits_cons s new_pos ax rest (Hp ax)) as [[Ho E]|[Hn E]].
    + left. exists [], ax, rest. repeat split; [intros a []|exact Ho|exact E].
    + rewrite E. destruct IH as [(pre & a & post & -> & Hpre & Ho & E')|[Hall E']].
      * left. exists (ax :: pre), a, post. repeat split; try assumption.
        intros b [<-|Hb]; [exact Hn|now apply Hpre].
      * right. split; [|exact E'].
        intros b [<-|Hb]; [exact Hn|now apply Hall].
Qed.

Lemma In_axes (ax : axis) : In ax axes.
Proof. destruct ax; simpl; auto. Qed.

Lemma ao_calls_after_read (h : list hw_event) (raw : pos) :
  ao_calls (h ++ ai_task_calls raw) = ao_calls h.
Proof.
  unfold ao_calls. rewrite filter_app. simpl. apply app_nil_r.
Qed.

Lemma ramps_written_after_read (h : list hw_event) (raw : pos) :
  ramps_written (h ++ ai_task_calls raw) = ramps_written h.
Proof.
  unfold ramps_written. rewrite flat_map_app. simpl. apply app_nil_r.
Qed.

(** What [goto] has done when it reaches the end of its validation: one
    read of the position, and nothing else. *)
Lemma goto_prologue (staged : Q -> pos -> M unit) (s : scanner) (new_pos : pos)
    (retract_first : bool) (spd : option qarg) (quiet : bool) (w : world) (e : exn) :
  (speed_magnitude s spd = Raise e
   \/ (exists v, speed_magnitude s spd = Ok v)
      /\ check_limits s new_pos axes = Raise e) ->
  exists w',
    goto_body staged s new_pos retract_first spd quiet w = (Raise e, w') /\
    hw w' = hw w ++ ai_task_calls (ai_signal w (reads w)).
Proof.
  intros H. unfold goto_body.
  destruct H as [E | [[v Ev] E]]; [rewrite E | rewrite Ev, E];
    cbv beta iota zeta delta [bind position get_pos read_ai set_meta_position lift ret];
    eexists; split; reflexivity.
Qed.

(** With a speed that converts, an out-of-range target is refused with the
    error of the first offending axis. *)
Lemma goto_refuses (staged : Q -> pos -> M unit) (s : scanner) (new_pos : pos)
    (retract_first : bool) (spd : option qarg) (quiet : bool) (w : world) (v : Q) :
  limits_present s ->
  speed_magnitude s spd = Ok v ->
  (exists ax, out_of_range s new_pos ax) ->
  exists ax w',
    goto_body staged s new_pos retract_first spd quiet w
    = (Raise (ValueError_range ax (sorted (voltage_limits s (temp s) ax))), w') /\
    out_of_range s new_pos ax /\
    hw w' = hw w ++ ai_task_calls (ai_signal w (reads w)).
Proof.
  intros Hp Ev [bad Hbad].
  destruct (check_limits_spec s new_pos axes Hp)
    as [(pre & ax & post & _ & _ & Ho & E)|[Hall _]];
    [|exfalso; exact (Hall bad (In_axes bad) Hbad)].
  destruct (goto_prologue staged s new_pos retract_first spd quiet w
              (ValueError_range ax (sorted (voltage_limits s (temp s) ax))))
    as (w' & Eg & Ehw).
  { right. split; [exists v; exact Ev|exact E]. }
  exists ax, w'. repeat split; assumption.
Qed.

(** C1.  When some axis of the target is outside the limits of the active
    temperature mode, [goto] raises, and all it has done by then is read the
    position once: no analog-output task is opened and no ramp is written,
    whatever [retract_first] is.  With a speed argument that converts to
    V/s (or none) the exception is the out-of-range error, carrying the
    offending axis (the first one in the order x, y, z) and its limits. *)
Theorem goto_out_of_range_rejected (s : scanner) (new_pos : pos)
    (retract_first : bool) (spd : option qarg) (quiet : bool) (w : world) :
  limits_present s ->
  (exists ax, out_of_range s new_pos ax) ->
  exists e w',
    goto s new_pos retract_first spd quiet w = (Raise e, w') /\
    hw w' = hw w ++ ai_task_calls (ai_signal w (reads w)) /\
    ao_calls (hw w') = ao_calls (hw w) /\
    ramps_written (hw w') = ramps_written (hw w) /\
    (forall v, speed_magnitude s spd = Ok v ->
       exists ax,
         e = ValueError_range ax (sorted (voltage_limits s (temp s) ax)) /\
         out_of_range s new_pos ax).
Proof.
  intros Hp Hbad.
  destruct (speed_magnitude s spd) as [v|e0] eqn:Ev.
  - destruct (goto_refuses (goto_staged s) s new_pos retract_first spd quiet w v
                Hp Ev Hbad) as (ax & w' & Eg & Ho & Ehw).
    exists (ValueError_range ax (sorted (voltage_limits s (temp s) ax))), w'.
    split; [exact Eg|]. split; [exact Ehw|].
    rewrite Ehw, ao_calls_after_read, ramps_written_after_read.
    repeat split. intros _ _. exists ax. split; [reflexivity|exact Ho].
  - destruct (goto_prologue (goto_staged s) s new_pos retract_first spd quiet w e0)
      as (w' & Eg & Ehw).
    { left. exact Ev. }
    exists e0, w'.
    split; [exact Eg|]. split; [exact Ehw|].
    rewrite Ehw, ao_calls_after_read, ramps_written_after_read.
    repeat split. intros v Hv. discriminate Hv.
Qed.

Lemma goto_out_of_range_rejected_witness :
  limits_present demo_scanner /\
  (exists ax, out_of_range demo_scanner (mkpos 0 7 0) ax) /\
  exists e w',
    goto demo_scanner (mkpos 0 7 0) true None false demo_world = (Raise e, w') /\
    ramps_written (hw w') = ramps_written (hw demo_world).
Proof.
  assert (Hp : limits_present demo_scanner).
  { intros ax. vm_compute. discriminate. }
  assert (Ho : exists ax, out_of_range demo_scanner (mkpos 0 7 0) ax).
  { exists Y. exists (-(5 # 2)), 5. vm_compute. repeat split; auto. }
  split; [exact Hp|]. split; [exact Ho|].
  destruct (goto_out_of_range_rejected demo_scanner (mkpos 0 7 0) true None false
              demo_world Hp Ho) as (e & w' & E & _ & _ & Hr & _).
  exists e, w'. split; [exact E|exact Hr].
Defined.

(** ** [goto]: the direct move *)





(** ** [goto] with [retract_first] *)

(** A bare number is not a speed: converting it to V/s raises. *)
Lemma speed_magnitude_bare_number (s : scanner) (v : Q) :
  speed_magnitude s (Some (QNum v)) = Raise DimensionalityError.
Proof. reflexivity. Qed.

(** C2.  [goto] with [retract_first=True] never performs the staged move.
    It always raises, having only read the position once and written no
    ramp; on a target that passes validation (with a speed argument that
    converts) the exception is pint's DimensionalityError, raised by
    [retract] when it is handed the speed as a bare float. *)
Theorem goto_retract_first_always_raises (s : scanner) (new_pos : pos)
    (spd : option qarg) (quiet : bool) (w : world) :
  exists e w',
    goto s new_pos true spd quiet w = (Raise e, w') /\
    hw w' = hw w ++ ai_task_calls (ai_signal w (reads w)) /\
    ramps_written (hw w') = ramps_written (hw w) /\
    ((exists v, speed_magnitude s spd = Ok v) /\ check_limits s new_pos axes = Ok tt ->
     e = DimensionalityError).
Proof.
  destruct (speed_magnitude s spd) as [v|e0] eqn:Es.
  - destruct (check_limits s new_pos axes) as [[]|e1] eqn:Ec.
    + exists DimensionalityError. unfold goto, goto_body. rewrite Es, Ec.
      cbv beta iota zeta delta
        [bind position get_pos read_ai set_meta_position lift ret negb
         goto_staged retract].
      rewrite speed_magnitude_bare_number.
      eexists. split; [reflexivity|]. cbn [hw].
      rewrite ramps_written_after_read. repeat split.
    + destruct (goto_prologue (goto_staged s) s new_pos true spd quiet w e1)
        as (w' & E & Ehw).
      { right. split; [exists v; exact Es|exact Ec]. }
      exists e1, w'. rewrite Ehw, ramps_written_after_read.
      repeat split; try assumption. intros [_ H]. discriminate H.
  - destruct (goto_prologue (goto_staged s) s new_pos true spd quiet w e0)
      as (w' & E & Ehw).
    { left. exact Es. }
    exists e0, w'. rewrite Ehw, ramps_written_after_read.
    repeat split; try assumption. intros [[v H] _]. discriminate H.
Qed.

(** The same at a sample input: a target inside the limits, the default
    speed. *)
Lemma goto_retract_first_always_raises_witness :
  check_limits demo_scanner (mkpos 1 1 1) axes = Ok tt /\
  exists w',
    goto demo_scanner (mkpos 1 1 1) true None false demo_world
    = (Raise DimensionalityError, w') /\
    ramps_written (hw w') = [].
Proof.
  split; [reflexivity|].
  destruct (goto_retract_first_always_raises demo_scanner (mkpos 1 1 1) None false
              demo_world) as (e & w' & E & _ & Hr & He).
  exists w'. rewrite <- He.
  - split; [exact E|exact Hr].
  - split; [exists 1; reflexivity|reflexivity].
Defined.

(** ** Construction *)







(** ** The touchdown detector *)

Lemma safety_checks_eval (plot : tdc_plot) (pt : Z) (st : td_state) :
  (if (1 <? pt)%Z
   then safety_checks plot (py_slice (data plot) None (Some (pt + 1)%Z)) pt
   else ret false) st
  = match safety_verdict plot pt with
    | Ok false => (Ok false, st)
    | Ok true =>
        (Ok true,
         snd (td_log WARNING (safety_warning plot pt) st))
    | Raise e => (Raise e, st)
    end.
Proof.
  unfold safety_verdict, safety_checks, safety_warning.
  destruct (1 <? pt)%Z; [|reflexivity].
  cbv beta iota zeta delta [bind lift ret].
  destruct (py_any (map (unbalanced _ _ _) _)) as [[|]|e]; try reflexivity.
  destruct (py_any (map (railing _ _ _) _)) as [[|]|e]; reflexivity.
Qed.

(** [check_for_td] once the safety checks have let it go on and the
    changepoint search runs. *)
Lemma check_for_td_search (fit_line : fitter) (plot : tdc_plot) (pt : Z) (st : td_state) :
  safety_verdict plot pt = Ok false ->
  search_runs plot pt = true ->
  check_for_td fit_line plot pt st
  = match changepoint fit_line plot pt (snd (td_reset st)) with
    | (Ok false, st') => (Ok (td_has_occurred st'), st')
    | r => r
    end.
Proof.
  intros Hg Hs. unfold check_for_td.
  unfold bind at 1. cbn [td_reset].
  unfold bind at 1. rewrite safety_checks_eval, Hg, Hs.
  unfold bind at 1. cbn [snd].
  destruct (changepoint _ _ _ _) as [[[|]|e] st'] eqn:E; try reflexivity.
  assert (Hlt : (Z.of_nat (List.length (heights plot)) <=? pt)%Z = false).
  { unfold search_runs in Hs. apply andb_true_iff in Hs as [Hs _].
    apply Z.ltb_lt in Hs. apply Z.leb_gt. exact Hs. }
  rewrite Hlt. reflexivity.
Qed.

(** C3.  When the changepoint search runs and the slope before the split is
    within the bound, [check_for_td] returns [td_has_occurred], which is
    true exactly when the slopes before and after the split differ by more
    than [max_slope]; the height it then reports is where the two fitted
    lines meet, [(p1[1] - p0[1]) / (p0[0] - p1[0])], with a non-zero
    denominator. *)
Theorem touchdown_iff_slope_change (fit_line : fitter) (plot : tdc_plot) (pt : Z)
    (st : td_state) :
  safety_verdict plot pt = Ok false ->
  search_runs plot pt = true ->
  Qabs (fst (pre_fit fit_line plot pt)) <= max_slope (constants plot) ->
  let p0 := pre_fit fit_line plot pt in
  let p1 := post_fit fit_line plot pt in
  let h := (snd p1 - snd p0) / (fst p0 - fst p1) in
  exists st',
    check_for_td fit_line plot pt st = (Ok (td_has_occurred st'), st') /\
    (td_has_occurred st' = true
     <-> max_slope (constants plot) < Qabs (fst p0 - fst p1)) /\
    (td_has_occurred st' = true ->
     ~ fst p0 - fst p1 == 0 /\
     td_height st' = Some h /\ plot_td_height st' = Some h /\
     pre_td_slope st' = Some (fst p0) /\ post_td_slope st' = Some (fst p1)) /\
    (td_has_occurred st' = false -> td_height st' = None).
Proof.
  intros Hg Hs Hpre p0 p1 h.
  rewrite (check_for_td_search fit_line plot pt st Hg Hs).
  unfold changepoint. fold p0 p1.
  apply Qltb_ge in Hpre. fold p0 in Hpre.
  cbv beta iota zeta delta [bind ret td_draw td_reset snd]. rewrite Hpre.
  destruct (Qltb (max_slope (constants plot)) (Qabs (fst p0 - fst p1))) eqn:E.
  - cbv beta iota zeta delta [bind ret td_draw td_detected td_log].
    eexists. split; [reflexivity|]. cbn [td_has_occurred td_height plot_td_height
                                         pre_td_slope post_td_slope].
    apply Qltb_lt in E. split; [tauto|]. split; [|discriminate].
    intros _. repeat split. intros Hz.
    rewrite Hz in E. apply Qltb_ge in Hpre.
    apply (Qlt_not_le _ _ E). apply Qle_trans with (Qabs (fst p0)); [|exact Hpre].
    apply Qabs_nonneg.
  - cbv beta iota zeta delta [bind ret td_draw].
    eexists. split; [reflexivity|]. cbn [td_has_occurred td_height].
    apply Qltb_ge in E. split; [|split; [discriminate|reflexivity]].
    split; [discriminate|]. intros H. exfalso. apply (Qlt_not_le _ _ H E).
Qed.

(** C10.  [max_slope] is both the bound on the slope before the split and
    the detection threshold (see [touchdown_iff_slope_change]); when the
    search runs and the slope before the split exceeds it, [check_for_td]
    logs the warning and returns True with [td_has_occurred] still False and
    no height, whatever the slope after the split is. *)
Theorem steep_pre_slope_aborts (fit_line : fitter) (plot : tdc_plot) (pt : Z)
    (st : td_state) :
  safety_verdict plot pt = Ok false ->
  search_runs plot pt = true ->
  max_slope (constants plot) < Qabs (fst (pre_fit fit_line plot pt)) ->
  exists st',
    check_for_td fit_line plot pt st = (Ok true, st') /\
    td_has_occurred st' = false /\
    td_height st' = None /\
    plot_td_height st' = plot_td_height st /\
    pre_td_slope st' = pre_td_slope st /\
    post_td_slope st' = post_td_slope st /\
    td_logs st'
    = td_logs st ++ [(WARNING, Msg_pre_slope (fst (pre_fit fit_line plot pt)))].
Proof.
  intros Hg Hs Hpre.
  rewrite (check_for_td_search fit_line plot pt st Hg Hs).
  unfold changepoint. apply Qltb_lt in Hpre.
  cbv beta iota zeta delta [bind ret td_draw td_reset td_log snd]. rewrite Hpre.
  eexists. split; [reflexivity|]. repeat split.
Qed.

Lemma touchdown_iff_slope_change_witness :
  safety_verdict kink_plot 17 = Ok false /\
  search_runs kink_plot 17 = true /\
  Qabs (fst (pre_fit lsq_fit_line kink_plot 17)) <= max_slope (constants kink_plot) /\
  exists st',
    check_for_td lsq_fit_line kink_plot 17 demo_td_state = (Ok true, st') /\
    td_has_occurred st' = true /\
    exists h, td_height st' = Some h /\ h == 14.
Proof.
  assert (Hg : safety_verdict kink_plot 17 = Ok false) by (vm_compute; reflexivity).
  assert (Hs : search_runs kink_plot 17 = true) by reflexivity.
  assert (Hp : Qabs (fst (pre_fit lsq_fit_line kink_plot 17))
               <= max_slope (constants kink_plot)) by (vm_compute; discriminate).
  repeat (split; [assumption|]).
  destruct (touchdown_iff_slope_change lsq_fit_line kink_plot 17 demo_td_state Hg Hs Hp)
    as (st' & E & Hiff & Hdet & _).
  assert (Ht : td_has_occurred st' = true) by (apply Hiff; vm_compute; reflexivity).
  destruct (Hdet Ht) as (_ & Hh & _).
  exists st'. rewrite Ht in E. split; [exact E|]. split; [exact Ht|].
  eexists. split; [exact Hh|]. vm_compute. reflexivity.
Defined.

Lemma steep_pre_slope_aborts_witness :
  safety_verdict steep_plot 17 = Ok false /\
  search_runs steep_plot 17 = true /\
  max_slope (constants steep_plot) < Qabs (fst (pre_fit lsq_fit_line steep_plot 17)) /\
  exists st',
    check_for_td lsq_fit_line steep_plot 17 demo_td_state = (Ok true, st') /\
    td_has_occurred st' = false.
Proof.
  assert (Hg : safety_verdict steep_plot 17 = Ok false) by (vm_compute; reflexivity).
  assert (Hs : search_runs steep_plot 17 = true) by reflexivity.
  assert (Hp : max_slope (constants steep_plot)
               < Qabs (fst (pre_fit lsq_fit_line steep_plot 17)))
    by (vm_compute; reflexivity).
  repeat (split; [assumption|]).
  destruct (steep_pre_slope_aborts lsq_fit_line steep_plot 17 demo_td_state Hg Hs Hp)
    as (st' & E & Ht & _).
  exists st'. split; [exact E|exact Ht].
Defined.

(** ** The safety checks *)

Lemma py_slice_prefix (l : list Q) (n : Z) :
  (0 <= n <= Z.of_nat (List.length l))%Z ->
  py_slice l None (Some n) = firstn (Z.to_nat n) l.
Proof.
  intros H. unfold py_slice, slice_bound.
  destruct (Z.ltb_spec n 0); [lia|].
  rewrite Z.min_l by lia. rewrite Z.sub_0_r. reflexivity.
Qed.

Lemma py_slice_window (l : list Q) (s e : Z) :
  (0 <= s <= e)%Z -> (e <= Z.of_nat (List.length l))%Z ->
  py_slice l (Some s) (Some e)
  = firstn (Z.to_nat (e - s)) (skipn (Z.to_nat s) l).
Proof.
  intros Hs He. unfold py_slice, slice_bound.
  destruct (Z.ltb_spec s 0); [lia|]. destruct (Z.ltb_spec e 0); [lia|].
  rewrite !Z.min_l by lia. reflexivity.
Qed.

Lemma py_slice_tail (l : list Q) (s : Z) :
  (0 <= s <= Z.of_nat (List.length l))%Z ->
  py_slice l (Some s) None
  = firstn (Z.to_nat (Z.of_nat (List.length l) - s)) (skipn (Z.to_nat s) l).
Proof.
  intros Hs. unfold py_slice, slice_bound.
  destruct (Z.ltb_spec s 0); [lia|].
  rewrite Z.min_l by lia. reflexivity.
Qed.

Lemma py_index_firstn (l : list Q) (n k : Z) :
  (0 <= k < n)%Z -> (n <= Z.of_nat (List.length l))%Z ->
  py_index (firstn (Z.to_nat n) l) k = Ok (nth (Z.to_nat k) l 0).
Proof.
  intros Hk Hn. unfold py_index. cbv zeta. rewrite length_firstn.
  assert (E0 : (k <? 0)%Z = false) by (apply Z.ltb_ge; lia).
  rewrite E0. rewrite E0. cbn [orb].
  destruct (Z.leb_spec (Z.of_nat (Nat.min (Z.to_nat n) (List.length l))) k); [lia|].
  rewrite nth_firstn.
  destruct (Nat.ltb_spec (Z.to_nat k) (Z.to_nat n)); [reflexivity|lia].
Qed.

Lemma py_slice_whole (l : list Q) (n : Z) :
  (Z.of_nat (List.length l) <= n)%Z -> py_slice l None (Some n) = l.
Proof.
  intros H. unfold py_slice, slice_bound.
  destruct (Z.ltb_spec n 0); [lia|].
  rewrite Z.min_r by lia. rewrite Z.sub_0_r, Nat2Z.id. apply firstn_all.
Qed.

Lemma py_index_beyond (l : list Q) (k : Z) :
  (Z.of_nat (List.length l) <= k)%Z -> py_index l k = Raise IndexError.
Proof.
  intros H. unfold py_index. cbv zeta.
  assert (E0 : (k <? 0)%Z = false) by (apply Z.ltb_ge; lia).
  rewrite E0. rewrite E0.
  assert (E1 : (Z.of_nat (List.length l) <=? k)%Z = true) by (apply Z.leb_le; lia).
  rewrite E1. reflexivity.
Qed.

Lemma rails_saturated (prefactor v : Q) : rails prefactor v = true <-> saturated prefactor v.
Proof.
  unfold rails, saturated. destruct (Qeq_bool prefactor 0).
  - rewrite negb_true_iff. split.
    + intros H. now apply Qeq_bool_neq.
    + intros H. destruct (Qeq_bool v 0) eqn:E; [|reflexivity].
      apply Qeq_bool_eq in E. contradiction.
  - apply Qltb_lt.
Qed.

(** The verdict of the safety checks in terms of the last two samples. *)
Lemma safety_verdict_samples (plot : tdc_plot) (pt : Z) :
  (1 < pt)%Z -> (pt < Z.of_nat (List.length (data plot)))%Z ->
  let c := constants plot in
  let drift k := Qltb (max_delta_cap c) (Qabs (sample plot k - initial_cap c)) in
  let rail k := rails (prefactor_CAP plot) (sample plot k) in
  safety_verdict plot pt
  = Ok (if drift pt || drift (pt - 1)%Z then true else rail pt || rail (pt - 1)%Z).
Proof.
  intros H1 Hlen c drift rail. unfold safety_verdict.
  destruct (Z.ltb_spec 1 pt); [|lia].
  rewrite py_slice_prefix by lia.
  change (py_range 0 2) with [0%Z; 1%Z]. cbn [map].
  unfold unbalanced, railing. rewrite Z.sub_0_r.
  rewrite !py_index_firstn by lia.
  fold (sample plot pt) (sample plot (pt - 1)) c.
  fold (drift pt) (drift (pt - 1)%Z) (rail pt) (rail (pt - 1)%Z).
  destruct (drift pt), (drift (pt - 1)%Z), (rail pt), (rail (pt - 1)%Z); reflexivity.
Qed.

(** [check_for_td] when the safety checks fire: it returns True at once. *)
Lemma check_for_td_gate (fit_line : fitter) (plot : tdc_plot) (pt : Z) (st : td_state) :
  safety_verdict plot pt = Ok true ->
  check_for_td fit_line plot pt st
  = (Ok true, mkTd false None (plot_td_height st) (pre_td_slope st)
                   (post_td_slope st) (drawn st)
                   (td_logs st ++ [(WARNING, safety_warning plot pt)])).
Proof.
  intros Hg. unfold check_for_td.
  unfold bind at 1. cbn [td_reset].
  unfold bind at 1. rewrite safety_checks_eval, Hg. reflexivity.
Qed.

Lemma safety_warning_cases (plot : tdc_plot) (pt : Z) :
  safety_warning plot pt = Msg_unbalanced \/ safety_warning plot pt = Msg_railing.
Proof.
  unfold safety_warning. destruct (py_any _) as [[|]|e]; auto.
Qed.

Lemma safety_verdict_fires (plot : tdc_plot) (pt : Z) :
  (1 < pt)%Z ->
  (pt < Z.of_nat (List.length (data plot)))%Z ->
  (exists k, (k = pt \/ k = pt - 1)%Z /\
     (max_delta_cap (constants plot) < Qabs (sample plot k - initial_cap (constants plot))
      \/ saturated (prefactor_CAP plot) (sample plot k))) ->
  safety_verdict plot pt = Ok true.
Proof.
  intros H1 Hlen (k & Hk & Hbad).
  rewrite (safety_verdict_samples plot pt H1 Hlen). cbv zeta. f_equal.
  destruct Hbad as [H|H].
  - apply Qltb_lt in H.
    destruct Hk as [-> | ->]; rewrite H.
    + reflexivity.
    + rewrite orb_true_r. reflexivity.
  - apply rails_saturated in H.
    destruct (_ || _); [reflexivity|].
    destruct Hk as [-> | ->]; rewrite H.
    + reflexivity.
    + apply orb_true_r.
Qed.

(** C5, as amended.  At a step [pt > 1] whose sample is in the buffer, if
    one of the last two samples is further than [max_delta_cap] from the
    initial value, or one of the last two converted samples is beyond the
    5 V bound, [check_for_td] logs a warning and returns True.  No fit takes
    part in this: the outcome is the same for every [fit_line], nothing is
    drawn and no touchdown is recorded.  The stepping loop evaluates no
    later step. *)
Theorem safety_checks_abort (fit_line : fitter) (plot : tdc_plot) (pt : Z)
    (st : td_state) :
  (1 < pt)%Z ->
  (pt < Z.of_nat (List.length (data plot)))%Z ->
  (exists k, (k = pt \/ k = pt - 1)%Z /\
     (max_delta_cap (constants plot) < Qabs (sample plot k - initial_cap (constants plot))
      \/ saturated (prefactor_CAP plot) (sample plot k))) ->
  exists st',
    check_for_td fit_line plot pt st = (Ok true, st') /\
    (forall fit_line', check_for_td fit_line' plot pt st = (Ok true, st')) /\
    drawn st' = drawn st /\
    td_has_occurred st' = false /\ td_height st' = None /\
    (exists m, (m = Msg_unbalanced \/ m = Msg_railing) /\
               td_logs st' = td_logs st ++ [(WARNING, m)]) /\
    (forall rest, td_loop fit_line plot (pt :: rest) st = ([(pt, Ok true)], st')).
Proof.
  intros H1 Hlen Hbad.
  pose proof (safety_verdict_fires plot pt H1 Hlen Hbad) as Hg.
  eexists. split; [apply check_for_td_gate; exact Hg|].
  split; [intros fit_line'; apply check_for_td_gate; exact Hg|].
  cbn [drawn td_has_occurred td_height td_logs].
  repeat split.
  - exists (safety_warning plot pt). split; [apply safety_warning_cases|reflexivity].
  - intros rest. cbn [td_loop].
    rewrite (check_for_td_gate fit_line plot pt st Hg). reflexivity.
Qed.

Lemma safety_checks_abort_witness :
  (1 < 2)%Z /\
  (2 < Z.of_nat (List.length (data steep_plot)))%Z /\
  saturated (1 # 10) (sample steep_plot 2) /\
  exists st',
    check_for_td lsq_fit_line (mkPlot demo_constants (1 # 10) (data steep_plot) demo_heights)
                 2 demo_td_state = (Ok true, st') /\
    td_has_occurred st' = false.
Proof.
  assert (H1 : (1 < 2)%Z) by reflexivity.
  assert (Hl : (2 < Z.of_nat (List.length (data steep_plot)))%Z) by reflexivity.
  assert (Hs : saturated (1 # 10) (sample steep_plot 2)) by reflexivity.
  repeat (split; [assumption|]).
  destruct (safety_checks_abort lsq_fit_line
              (mkPlot demo_constants (1 # 10) (data steep_plot) demo_heights)
              2 demo_td_state H1 Hl) as (st' & E & _ & _ & Ht & _).
  { exists 2%Z. split; [left; reflexivity|right; exact Hs]. }
  exists st'. split; [exact E|exact Ht].
Defined.

(** C5, as stated, fails at [pt = 1]: two samples exist, the last one is far
    from the initial value, and [check_for_td] returns False, because the
    checks are under [if pt > 1]. *)
Lemma safety_checks_skipped_at_two_samples :
  ~ (forall (fit_line : fitter) (plot : tdc_plot) (pt : Z) (st : td_state),
       (2 <= pt + 1)%Z ->
       (pt < Z.of_nat (List.length (data plot)))%Z ->
       (exists k, (k = pt \/ k = pt - 1)%Z /\
          (max_delta_cap (constants plot)
           < Qabs (sample plot k - initial_cap (constants plot))
           \/ saturated (prefactor_CAP plot) (sample plot k))) ->
       fst (check_for_td fit_line plot pt st) = Ok true).
Proof.
  intros H.
  assert (E : fst (check_for_td lsq_fit_line jump_plot 1 demo_td_state) = Ok false)
    by (vm_compute; reflexivity).
  assert (Habs : fst (check_for_td lsq_fit_line jump_plot 1 demo_td_state) = Ok true).
  { apply H; [discriminate|reflexivity|].
    exists 1%Z. split; [left; reflexivity|left; reflexivity]. }
  rewrite E in Habs. discriminate Habs.
Qed.

(** ** The changepoint search *)

Lemma py_range_nil (a b : Z) : (b <= a)%Z -> py_range a b = [].
Proof.
  intros H. unfold py_range. replace (Z.to_nat (b - a)) with 0%nat by lia. reflexivity.
Qed.

Lemma py_range_cons (a b : Z) : (a < b)%Z -> py_range a b = a :: py_range (a + 1) b.
Proof.
  intros H. unfold py_range.
  replace (Z.to_nat (b - a)) with (S (Z.to_nat (b - (a + 1)))) by lia.
  simpl. rewrite Z.add_0_r. f_equal.
  rewrite <- seq_shift, map_map. apply map_ext. intros k. lia.
Qed.

Lemma In_py_range (a b j : Z) : In j (py_range a b) <-> (a <= j < b)%Z.
Proof.
  unfold py_range. rewrite in_map_iff. split.
  - intros (k & <- & Hk). apply in_seq in Hk. lia.
  - intros H. exists (Z.to_nat (j - a)). split; [lia|]. apply in_seq. lia.
Qed.

Lemma py_range_split (pre post : list Z) (i : Z) :
  forall a b, py_range a b = pre ++ i :: post ->
              pre = py_range a i /\ post = py_range (i + 1) b.
Proof.
  induction pre as [|x pre IH]; intros a b E.
  - destruct (Z.lt_ge_cases a b) as [H|H].
    + rewrite py_range_cons in E by exact H. injection E as <- <-.
      split; [symmetry; apply py_range_nil; lia|reflexivity].
    + rewrite py_range_nil in E by exact H. discriminate E.
  - destruct (Z.lt_ge_cases a b) as [H|H].
    + rewrite py_range_cons in E by exact H. simpl in E. injection E as <- E.
      destruct (IH _ _ E) as [-> ->].
      assert (Hi : In i (py_range (a + 1) b)) by (rewrite E; apply in_elt).
      apply In_py_range in Hi.
      split; [|reflexivity]. symmetry. apply py_range_cons. lia.
    + rewrite py_range_nil in E by exact H. discriminate E.
Qed.

Section Search.

Variables (fit_line : fitter) (hdata cdata : list Q) (pt nwindow : Z).

Let rms : Z -> Q := split_rms fit_line hdata cdata pt nwindow.
Let search := search_split fit_line hdata cdata pt nwindow.

(** The loop started with a finite [rmsmin]: either no candidate is below
    it, or the result is the first candidate of least residual. *)
Lemma search_split_from (cands : list Z) :
  forall (imin0 : Z) (m : Q),
    (search cands imin0 (Some m) = (imin0, Some m) /\
     forall j, In j cands -> m <= rms j)
    \/ (exists i pre post,
          search cands imin0 (Some m) = (i, Some (rms i)) /\
          cands = pre ++ i :: post /\
          rms i < m /\
          (forall j, In j pre -> rms i < rms j) /\
          (forall j, In j post -> rms i <= rms j)).
Proof.
  induction cands as [|c rest IH]; intros imin0 m.
  - left. split; [reflexivity|intros j []].
  - unfold search. cbn [search_split]. fold rms. fold search.
    cbn [below]. destruct (Qltb (rms c) m) eqn:E.
    + apply Qltb_lt in E. right.
      destruct (IH c (rms c)) as [[Es Hall]|(i & pre & post & Es & -> & Hlt & Hpre & Hpost)].
      * exists c, [], rest. repeat split; try assumption. intros j [].
      * exists i, (c :: pre), post. repeat split; try assumption.
        -- apply Qlt_trans with (rms c); assumption.
        -- intros j [<-|Hj]; [exact Hlt|now apply Hpre].
    + apply Qltb_ge in E.
      destruct (IH imin0 m) as [[Es Hall]|(i & pre & post & Es & -> & Hlt & Hpre & Hpost)].
      * left. split; [exact Es|]. intros j [<-|Hj]; [exact E|now apply Hall].
      * right. exists i, (c :: pre), post. repeat split; try assumption.
        intros j [<-|Hj]; [|now apply Hpre].
        apply Qlt_le_trans with m; assumption.
Qed.

(** The loop as [check_for_td] starts it, with [rmsmin = np.inf]. *)
Lemma search_split_first_min (cands : list Z) (imin0 : Z) :
  cands <> [] ->
  exists i pre post,
    search cands imin0 None = (i, Some (rms i)) /\
    cands = pre ++ i :: post /\
    (forall j, In j pre -> rms i < rms j) /\
    (forall j, In j post -> rms i <= rms j).
Proof.
  destruct cands as [|c rest]; [congruence|]. intros _.
  unfold search. cbn [search_split below]. fold rms. fold search.
  destruct (search_split_from rest c (rms c))
    as [[Es Hall]|(i & pre & post & Es & -> & Hlt & Hpre & Hpost)].
  - exists c, [], rest. repeat split; try assumption. intros j [].
  - exists i, (c :: pre), post. repeat split; try assumption.
    intros j [<-|Hj]; [exact Hlt|now apply Hpre].
Qed.

End Search.

(** Whatever it decides, the changepoint block first draws the two lines
    fitted on either side of the selected split. *)
Lemma changepoint_draws (fit_line : fitter) (plot : tdc_plot) (pt : Z) (st : td_state) :
  let hdata := py_slice (heights plot) None (Some (pt + 1)%Z) in
  let imin := selected_split fit_line plot pt in
  exists r st' more,
    changepoint fit_line plot pt st = (r, st') /\
    drawn st'
    = drawn st
      ++ PlotLine (py_slice hdata (Some (pt - N_window (constants plot))%Z)
                            (Some (imin + 1)%Z))
                  (pre_fit fit_line plot pt)
      :: PlotLine (py_slice hdata (Some imin) None) (post_fit fit_line plot pt)
      :: more.
Proof.
  intros hdata imin. unfold changepoint. fold hdata imin.
  cbv beta iota zeta delta [bind ret td_draw td_detected td_log].
  destruct (Qltb _ (Qabs (fst (pre_fit fit_line plot pt)))).
  - do 3 eexists. split; [reflexivity|]. cbn [drawn]. reflexivity.
  - destruct (Qltb _ _).
    + do 3 eexists. split; [reflexivity|]. cbn [drawn].
      rewrite <- !app_assoc. reflexivity.
    + do 3 eexists. split; [reflexivity|]. cbn [drawn].
      rewrite <- !app_assoc. reflexivity.
Qed.

(** The search in terms of the slices the code takes: with candidates, the
    split selected is the first candidate of least residual. *)
Lemma search_selects_first_minimum (fit_line : fitter) (plot : tdc_plot) (pt : Z) :
  let c := constants plot in
  let lo := (pt - N_window c + N_fit_min c)%Z in
  let hi := (pt - N_fit_min c)%Z in
  (lo < hi)%Z ->
  let hdata := py_slice (heights plot) None (Some (pt + 1)%Z) in
  let cdata := py_slice (data plot) None (Some (pt + 1)%Z) in
  let rms := split_rms fit_line hdata cdata pt (N_window c) in
  let imin := selected_split fit_line plot pt in
  (lo <= imin < hi)%Z /\
  (forall j, (lo <= j < hi)%Z -> rms imin <= rms j) /\
  (forall j, (lo <= j < imin)%Z -> rms imin < rms j).
Proof.
  intros c lo hi Hlt hdata cdata rms imin.
  assert (Hne : candidates c pt <> []).
  { unfold candidates. fold lo hi. rewrite py_range_cons by exact Hlt. discriminate. }
  destruct (search_split_first_min fit_line hdata cdata pt (N_window c)
              (candidates c pt) lo Hne)
    as (i & pre & post & Es & Ec & Hpre & Hpost).
  assert (Ei : imin = i).
  { unfold imin, selected_split. fold c hdata cdata lo. rewrite Es. reflexivity. }
  unfold candidates in Ec. fold lo hi in Ec.
  destruct (py_range_split pre post i lo hi Ec) as [-> ->].
  assert (Hin : In i (py_range lo hi)) by (rewrite Ec; apply in_elt).
  apply In_py_range in Hin.
  fold rms in Hpre, Hpost.
  rewrite Ei. split; [exact Hin|]. split.
  - intros j Hj. destruct (Z.lt_trichotomy j i) as [H|[->|H]].
    + apply Qlt_le_weak, Hpre, In_py_range. lia.
    + apply Qle_refl.
    + apply Hpost, In_py_range. lia.
  - intros j Hj. apply Hpre, In_py_range. exact Hj.
Qed.

(** The slices of the truncated buffers are the segments between the same
    indices, as long as these are within the buffer. *)
Lemma firstn_skipn_segment (l : list Q) (a n : nat) :
  (a + n <= List.length l)%nat ->
  firstn n (skipn a l) = map (fun k => nth k l 0) (seq a n).
Proof.
  intros H. apply (nth_ext _ _ 0 0).
  - rewrite length_firstn, length_skipn, length_map, length_seq. lia.
  - intros k Hk. rewrite length_firstn, length_skipn in Hk.
    rewrite nth_firstn. destruct (Nat.ltb_spec k n); [|lia].
    rewrite nth_skipn, nth_map_seq by lia. reflexivity.
Qed.

Lemma py_slice_segment (l : list Q) (n a b : Z) :
  (0 <= a <= b)%Z -> (b <= n)%Z -> (n <= Z.of_nat (List.length l))%Z ->
  py_slice (py_slice l None (Some n)) (Some a) (Some b) = segment l a b.
Proof.
  intros Ha Hb Hn. rewrite py_slice_prefix by lia.
  rewrite py_slice_window by (rewrite ?length_firstn; lia).
  rewrite firstn_skipn_segment by (rewrite length_firstn; lia).
  unfold segment. apply map_ext_in. intros k Hk. apply in_seq in Hk.
  rewrite nth_firstn. destruct (Nat.ltb_spec k (Z.to_nat n)); [reflexivity|lia].
Qed.

Lemma py_slice_segment_tail (l : list Q) (n a : Z) :
  (0 <= a <= n)%Z -> (n <= Z.of_nat (List.length l))%Z ->
  py_slice (py_slice l None (Some n)) (Some a) None = segment l a n.
Proof.
  intros Ha Hn. rewrite py_slice_prefix by lia.
  rewrite py_slice_tail by (rewrite ?length_firstn; lia).
  rewrite length_firstn.
  rewrite firstn_skipn_segment by (rewrite length_firstn; lia).
  unfold segment. replace (Z.to_nat (Z.of_nat (Nat.min (Z.to_nat n) (List.length l)) - a))
    with (Z.to_nat (n - a)) by lia.
  apply map_ext_in. intros k Hk. apply in_seq in Hk.
  rewrite nth_firstn. destruct (Nat.ltb_spec k (Z.to_nat n)); [reflexivity|lia].
Qed.

(** Safety checks that return have read the sample of the step. *)
Lemma safety_verdict_buffer (plot : tdc_plot) (pt : Z) (b : bool) :
  (1 < pt)%Z -> safety_verdict plot pt = Ok b ->
  (pt < Z.of_nat (List.length (data plot)))%Z.
Proof.
  intros H1 Hg.
  destruct (Z.lt_ge_cases pt (Z.of_nat (List.length (data plot)))) as [H|H]; [exact H|].
  exfalso. revert Hg. unfold safety_verdict. destruct (Z.ltb_spec 1 pt); [|lia].
  rewrite py_slice_whole by lia.
  change (py_range 0 2) with [0%Z; 1%Z]. cbn [map].
  unfold unbalanced at 1. rewrite Z.sub_0_r, py_index_beyond by lia.
  discriminate.
Qed.

(** C4, as amended.  When the changepoint search runs and there are
    candidates, that is [pt - N_window + N_fit_min < pt - N_fit_min], with
    [N_fit_min >= 0]: the split selected is a candidate [i] of that range
    whose residual, the residual [fit_line] returns for the samples
    [pt - N_window .. i] plus the one it returns for the samples [i .. pt],
    is the least among the candidates, and strictly less than that of every
    earlier candidate: the first minimum in ascending order.  [N_fit_max]
    plays no part.  [check_for_td] goes on with the lines fitted to these
    two segments at that split, which it draws first. *)
Theorem selected_split_first_minimum (fit_line : fitter) (plot : tdc_plot) (pt : Z)
    (st : td_state) :
  safety_verdict plot pt = Ok false ->
  search_runs plot pt = true ->
  let c := constants plot in
  let lo := (pt - N_window c + N_fit_min c)%Z in
  let hi := (pt - N_fit_min c)%Z in
  (0 <= N_fit_min c)%Z ->
  (lo < hi)%Z ->
  let left_fit i := fit_line (segment (heights plot) (pt - N_window c) (i + 1))
                             (segment (data plot) (pt - N_window c) (i + 1)) in
  let right_fit i := fit_line (segment (heights plot) i (pt + 1))
                              (segment (data plot) i (pt + 1)) in
  let rms i := snd (left_fit i) + snd (right_fit i) in
  let imin := selected_split fit_line plot pt in
  (lo <= imin < hi)%Z /\
  (forall j, (lo <= j < hi)%Z -> rms imin <= rms j) /\
  (forall j, (lo <= j < imin)%Z -> rms imin < rms j) /\
  (forall m, selected_split fit_line (with_N_fit_max plot m) pt = imin) /\
  pre_fit fit_line plot pt = fst (left_fit imin) /\
  post_fit fit_line plot pt = fst (right_fit imin) /\
  exists r st' more,
    check_for_td fit_line plot pt st = (r, st') /\
    drawn st'
    = drawn st
      ++ PlotLine (segment (heights plot) (pt - N_window c) (imin + 1))
                  (fst (left_fit imin))
      :: PlotLine (segment (heights plot) imin (pt + 1)) (fst (right_fit imin))
      :: more.
Proof.
  intros Hg Hs c lo hi Hm Hlt left_fit right_fit rms imin.
  pose proof Hs as Hs'. unfold search_runs in Hs'.
  apply andb_true_iff in Hs' as [Hs1 Hs2]. apply Z.ltb_lt in Hs1, Hs2. fold c in Hs2.
  assert (Hbuf : (pt < Z.of_nat (List.length (data plot)))%Z).
  { apply (safety_verdict_buffer plot pt false); [lia|exact Hg]. }
  set (hdata := py_slice (heights plot) None (Some (pt + 1)%Z)).
  set (cdata := py_slice (data plot) None (Some (pt + 1)%Z)).
  assert (Erms : forall j, (lo <= j < hi)%Z ->
            split_rms fit_line hdata cdata pt (N_window c) j = rms j).
  { intros j Hj. unfold split_rms, hdata, cdata, rms, left_fit, right_fit.
    rewrite !py_slice_segment, !py_slice_segment_tail by lia. reflexivity. }
  destruct (search_selects_first_minimum fit_line plot pt Hlt) as (Hin & Hmin & Hfirst).
  fold c hdata cdata imin in Hin, Hmin, Hfirst.
  assert (Epre : pre_fit fit_line plot pt = fst (left_fit imin)).
  { unfold pre_fit, left_fit. fold c imin.
    rewrite !py_slice_segment by lia. reflexivity. }
  assert (Epost : post_fit fit_line plot pt = fst (right_fit imin)).
  { unfold post_fit, right_fit. fold c imin.
    rewrite !py_slice_segment_tail by lia. reflexivity. }
  split; [exact Hin|]. split; [|split; [|split; [|split; [exact Epre|split; [exact Epost|]]]]].
  - intros j Hj. rewrite <- (Erms imin Hin), <- (Erms j Hj). apply Hmin. exact Hj.
  - intros j Hj. rewrite <- (Erms imin Hin), <- (Erms j) by lia. apply Hfirst. exact Hj.
  - intros m. destruct plot as [[] ? ? ?]. reflexivity.
  - rewrite (check_for_td_search fit_line plot pt st Hg Hs).
    destruct (changepoint_draws fit_line plot pt (snd (td_reset st)))
      as (r & st' & more & E & Hd).
    rewrite E. fold hdata c imin in Hd. cbn [td_reset snd drawn] in Hd.
    rewrite Epre, Epost in Hd. unfold hdata in Hd.
    rewrite py_slice_segment, py_slice_segment_tail in Hd by lia.
    destruct r as [[|]|e]; do 3 eexists; (split; [reflexivity|exact Hd]).
Qed.

Lemma selected_split_first_minimum_witness :
  safety_verdict kink_plot 17 = Ok false /\
  search_runs kink_plot 17 = true /\
  (0 <= N_fit_min demo_constants)%Z /\
  (17 - N_window demo_constants + N_fit_min demo_constants
   < 17 - N_fit_min demo_constants)%Z /\
  (13 <= selected_split lsq_fit_line kink_plot 17 < 15)%Z.
Proof.
  assert (Hg : safety_verdict kink_plot 17 = Ok false) by (vm_compute; reflexivity).
  assert (Hs : search_runs kink_plot 17 = true) by reflexivity.
  assert (Hm : (0 <= N_fit_min demo_constants)%Z) by discriminate.
  assert (Hl : (17 - N_window demo_constants + N_fit_min demo_constants
                < 17 - N_fit_min demo_constants)%Z) by reflexivity.
  split; [exact Hg|]. split; [exact Hs|]. split; [exact Hm|]. split; [exact Hl|].
  destruct (selected_split_first_minimum lsq_fit_line kink_plot 17 demo_td_state
              Hg Hs Hm Hl) as (Hin & _).
  change (17 - N_window (constants kink_plot) + N_fit_min (constants kink_plot))%Z
    with 13%Z in Hin.
  change (17 - N_fit_min (constants kink_plot))%Z with 15%Z in Hin.
  exact Hin.
Defined.

(** C4, as stated, fails in three ways.  (1) The candidate range can be
    empty: with a window of 6 points and fits of 3 points at least, the
    search runs at step 17, there is no candidate, and the split is the
    initial value of [imin], 14, which is outside [range(14, 14)];
    [check_for_td] fits the two lines at that split all the same and
    records a touchdown.  (2) [N_fit_max] bounds nothing: with
    [N_fit_max = 2] the split selected in the kinked signal is still 14,
    three samples from either end of the window.  (3) With a negative
    [N_fit_min] the candidates leave the window: with [N_fit_min = -1] at
    step 17, the window starting at sample 11, sample 10 is a candidate. *)
Lemma selected_split_without_candidates :
  (safety_verdict narrow_plot 17 = Ok false /\
   search_runs narrow_plot 17 = true /\
   candidates (constants narrow_plot) 17 = [] /\
   selected_split lsq_fit_line narrow_plot 17 = 14%Z /\
   ~ In (selected_split lsq_fit_line narrow_plot 17)
        (py_range (17 - 6 + 3) (17 - 3)) /\
   exists st',
     check_for_td lsq_fit_line narrow_plot 17 demo_td_state = (Ok true, st') /\
     td_has_occurred st' = true) /\
  (N_fit_max (constants (with_N_fit_max kink_plot 2)) = 2%Z /\
   search_runs (with_N_fit_max kink_plot 2) 17 = true /\
   selected_split lsq_fit_line (with_N_fit_max kink_plot 2) 17 = 14%Z /\
   (2 < 14 - (17 - N_window demo_constants))%Z /\ (2 < 17 - 14)%Z) /\
  (In 10%Z (candidates (mkConstants 100 0 1 (-1) 4 6) 17) /\
   (10 < 17 - 6)%Z).
Proof.
  split; [|split].
  - split; [vm_compute; reflexivity|]. split; [reflexivity|].
    split; [reflexivity|]. split; [vm_compute; reflexivity|].
    split; [intros H; vm_compute in H; exact H|].
    eexists. split; [vm_compute; reflexivity|reflexivity].
  - split; [reflexivity|]. split; [reflexivity|].
    split; [vm_compute; reflexivity|]. split; reflexivity.
  - split; [|reflexivity]. vm_compute. tauto.
Qed.

(** ** Least squares on the points of a line *)

Lemma qlen_cons (x : Q) (l : list Q) : qlen (x :: l) == qlen l + 1.
Proof.
  unfold qlen. cbn [List.length]. rewrite Nat2Z.inj_succ, <- Z.add_1_r.
  rewrite inject_Z_plus. reflexivity.
Qed.

Lemma qlen_nonneg (l : list Q) : 0 <= qlen l.
Proof.
  unfold qlen. change 0 with (inject_Z 0). rewrite <- Zle_Qle. lia.
Qed.

Lemma qsum_line (a b : Q) (xs : list Q) :
  qsum (map (line a b) xs) == a * qsum xs + qlen xs * b.
Proof.
  induction xs as [|x xs IH].
  - unfold qlen. simpl. ring.
  - rewrite qlen_cons. cbn [map qsum fold_right]. fold (qsum (map (line a b) xs)).
    fold (qsum xs). rewrite IH. unfold line. ring.
Qed.

Lemma qsum_xy_line (a b : Q) (xs : list Q) :
  qsum (zip_with Qmult xs (map (line a b) xs))
  == a * qsum (zip_with Qmult xs xs) + b * qsum xs.
Proof.
  induction xs as [|x xs IH].
  - simpl. ring.
  - unfold zip_with in *. cbn [map combine qsum fold_right fst snd].
    fold (qsum xs).
    fold (qsum (map (fun xy => fst xy * snd xy) (combine xs (map (line a b) xs)))).
    fold (qsum (map (fun xy => fst xy * snd xy) (combine xs xs))).
    rewrite IH. unfold line. ring.
Qed.

Lemma Qsquare_nonneg (q : Q) : 0 <= q * q.
Proof.
  destruct (Qlt_le_dec q 0) as [H|H].
  - setoid_replace (q * q) with ((- q) * (- q)) by ring.
    apply Qmult_le_0_compat; lra.
  - apply Qmult_le_0_compat; exact H.
Qed.

Lemma Qsquare_pos (q : Q) : ~ q == 0 -> 0 < q * q.
Proof.
  intros Hne. destruct (Q_dec q 0) as [[H|H]|H]; [| |contradiction].
  - setoid_replace (q * q) with ((- q) * (- q)) by ring.
    apply Qmult_lt_0_compat; lra.
  - apply Qmult_lt_0_compat; exact H.
Qed.

Lemma sq_dev_nonneg (x : Q) (l : list Q) : 0 <= sq_dev x l.
Proof.
  unfold sq_dev. induction l as [|y l IH]; [apply Qle_refl|].
  cbn [map qsum fold_right]. fold (qsum (map (fun y => (x - y) * (x - y)) l)).
  pose proof (Qsquare_nonneg (x - y)) as H. lra.
Qed.

Lemma sq_dev_pos (x y : Q) (l : list Q) : In y l -> ~ x == y -> 0 < sq_dev x l.
Proof.
  intros Hin Hne. induction l as [|z l IH]; [destruct Hin|].
  unfold sq_dev. cbn [map qsum fold_right].
  fold (qsum (map (fun y => (x - y) * (x - y)) l)). fold (sq_dev x l).
  pose proof (sq_dev_nonneg x l) as Hn.
  destruct Hin as [->|Hin].
  - assert (H : 0 < (x - y) * (x - y)).
    { apply Qsquare_pos. intros H. apply Hne. lra. }
    lra.
  - pose proof (Qsquare_nonneg (x - z)) as H.
    specialize (IH Hin). lra.
Qed.

Lemma sq_dev_expand (x : Q) (l : list Q) :
  sq_dev x l == qlen l * (x * x) - (2 * x) * qsum l + qsum (zip_with Qmult l l).
Proof.
  unfold sq_dev, zip_with. induction l as [|y l IH].
  - unfold qlen. simpl. ring.
  - rewrite qlen_cons. cbn [map combine qsum fold_right fst snd].
    fold (qsum l).
    fold (qsum (map (fun y => (x - y) * (x - y)) l)).
    fold (qsum (map (fun xy => fst xy * snd xy) (combine l l))).
    rewrite IH. ring.
Qed.

Lemma spread_cons (x : Q) (l : list Q) : spread (x :: l) == spread l + sq_dev x l.
Proof.
  rewrite sq_dev_expand. unfold spread, zip_with. rewrite qlen_cons.
  cbn [map combine qsum fold_right fst snd].
  fold (qsum l). fold (qsum (map (fun xy => fst xy * snd xy) (combine l l))).
  ring.
Qed.

Lemma spread_nonneg (l : list Q) : 0 <= spread l.
Proof.
  induction l as [|x l IH].
  - unfold spread, qlen. simpl. lra.
  - rewrite spread_cons. pose proof (sq_dev_nonneg x l). lra.
Qed.

Lemma spread_pos (l : list Q) : two_distinct l -> 0 < spread l.
Proof.
  induction l as [|x l IH]; intros (u & v & Hu & Hv & Hne).
  - destruct Hu.
  - rewrite spread_cons.
    pose proof (spread_nonneg l) as Hs. pose proof (sq_dev_nonneg x l) as Hd.
    destruct Hu as [<-|Hu], Hv as [<-|Hv].
    + exfalso. apply Hne. reflexivity.
    + pose proof (sq_dev_pos x v l Hv Hne). lra.
    + assert (Hne' : ~ x == u) by (intros H; apply Hne; symmetry; exact H).
      pose proof (sq_dev_pos x u l Hu Hne'). lra.
    + assert (H : 0 < spread l) by (apply IH; exists u, v; auto). lra.
Qed.

(** The least-squares line through points of one line has its slope. *)
Lemma lsq_exact_on_lines : exact_on_lines lsq_fit_line.
Proof.
  intros xs a b H2. unfold lsq_fit_line. cbn [fst].
  fold (qlen xs). rewrite qsum_line, qsum_xy_line.
  pose proof (spread_pos xs H2) as Hp. unfold spread in Hp.
  field. intros Hz. rewrite Hz in Hp. apply (Qlt_irrefl 0 Hp).
Qed.

(** ** Slices of the height and signal buffers *)

Lemma py_slice_map (f : Q -> Q) (l : list Q) (start stop : option Z) :
  py_slice (map f l) start stop = map f (py_slice l start stop).
Proof.
  unfold py_slice. rewrite length_map, skipn_map, firstn_map. reflexivity.
Qed.

Lemma distinct_heights_firstn (l : list Q) (n : nat) :
  distinct_heights l -> distinct_heights (firstn n l).
Proof.
  intros H i j Hij. rewrite length_firstn in Hij. rewrite !nth_firstn.
  destruct (Nat.ltb_spec i n); [|lia]. destruct (Nat.ltb_spec j n); [|lia].
  apply H. lia.
Qed.

Lemma two_distinct_window (l : list Q) (s k : nat) :
  distinct_heights l -> (s + 2 <= List.length l)%nat -> (2 <= k)%nat ->
  two_distinct (firstn k (skipn s l)).
Proof.
  intros Hd Hs Hk.
  pose proof (length_skipn s l) as Hlen.
  pose proof (nth_skipn s l 0%nat 0) as H0.
  pose proof (nth_skipn s l 1%nat 0) as H1.
  destruct (skipn s l) as [|x [|y r]]; simpl in Hlen; try lia.
  destruct k as [|[|k]]; try lia.
  exists x, y. simpl. repeat split; auto.
  simpl in H0, H1. rewrite H0, H1. apply Hd. lia.
Qed.

Lemma selected_split_bounds (fit_line : fitter) (plot : tdc_plot) (pt : Z) :
  let c := constants plot in
  let lo := (pt - N_window c + N_fit_min c)%Z in
  let hi := (pt - N_fit_min c)%Z in
  let imin := selected_split fit_line plot pt in
  imin = lo \/ (lo <= imin < hi)%Z.
Proof.
  intros c lo hi imin.
  destruct (Z.lt_ge_cases lo hi) as [H|H].
  - right.
    assert (Hne : candidates c pt <> []).
    { unfold candidates. fold lo hi. rewrite py_range_cons by exact H. discriminate. }
    destruct (search_split_first_min fit_line
                (py_slice (heights plot) None (Some (pt + 1)%Z))
                (py_slice (data plot) None (Some (pt + 1)%Z))
                pt (N_window c) (candidates c pt) lo Hne)
      as (i & pre & post & Es & Ec & _).
    assert (Ei : imin = i).
    { unfold imin, selected_split. fold c lo. rewrite Es. reflexivity. }
    rewrite Ei. apply In_py_range. unfold candidates in Ec. fold lo hi in Ec.
    rewrite Ec. apply in_elt.
  - left. unfold imin, selected_split. fold c lo. unfold candidates. fold lo hi.
    rewrite py_range_nil by exact H. reflexivity.
Qed.

(** ** A flat series *)

(** On a flat series, the lines fitted on either side of the selected split
    both have the slope of the series. *)
Lemma flat_slopes (fit_line : fitter) (plot : tdc_plot) (a b : Q) (pt : Z) :
  exact_on_lines fit_line ->
  flat_series plot a b ->
  distinct_heights (heights plot) ->
  (1 <= N_fit_min (constants plot) < N_window (constants plot))%Z ->
  search_runs plot pt = true ->
  fst (pre_fit fit_line plot pt) == a /\ fst (post_fit fit_line plot pt) == a.
Proof.
  intros Hfit [extra Hdata] Hd Hc Hs.
  unfold search_runs in Hs. apply andb_true_iff in Hs as [Hs1 Hs2].
  apply Z.ltb_lt in Hs1, Hs2.
  set (c := constants plot) in *.
  set (n := Z.to_nat (pt + 1)).
  assert (Eh : py_slice (heights plot) None (Some (pt + 1)%Z) = firstn n (heights plot)).
  { apply py_slice_prefix. lia. }
  assert (Ec : py_slice (data plot) None (Some (pt + 1)%Z)
               = map (line a b) (firstn n (heights plot))).
  { rewrite py_slice_prefix
      by (rewrite Hdata, length_app, length_map; lia).
    fold n. rewrite Hdata, firstn_app, length_map.
    replace (n - List.length (heights plot))%nat with 0%nat by lia.
    rewrite firstn_O, app_nil_r. apply firstn_map. }
  assert (Hlen : Z.of_nat (List.length (firstn n (heights plot))) = (pt + 1)%Z).
  { rewrite length_firstn. lia. }
  assert (Hdn : distinct_heights (firstn n (heights plot)))
    by (apply distinct_heights_firstn; exact Hd).
  pose proof (selected_split_bounds fit_line plot pt) as Hb.
  cbv zeta in Hb. fold c in Hb.
  unfold pre_fit, post_fit. fold c.
  set (imin := selected_split fit_line plot pt) in *.
  rewrite Eh, Ec, !py_slice_map. split.
  - apply Hfit. rewrite py_slice_window by lia.
    apply two_distinct_window; [exact Hdn|lia|lia].
  - apply Hfit. rewrite py_slice_tail by lia.
    apply two_distinct_window; [exact Hdn|lia|lia].
Qed.

(** [check_for_td] when the safety checks raise. *)
Lemma check_for_td_raise (fit_line : fitter) (plot : tdc_plot) (pt : Z) (st : td_state)
    (e : exn) :
  safety_verdict plot pt = Raise e ->
  check_for_td fit_line plot pt st
  = (Raise e, mkTd false None (plot_td_height st) (pre_td_slope st)
                   (post_td_slope st) (drawn st) (td_logs st)).
Proof.
  intros Hg. unfold check_for_td.
  unfold bind at 1. cbn [td_reset].
  unfold bind at 1. rewrite safety_checks_eval, Hg. reflexivity.
Qed.

(** [check_for_td] when the safety checks let it go on and the changepoint
    search does not run. *)
Lemma check_for_td_no_search (fit_line : fitter) (plot : tdc_plot) (pt : Z)
    (st : td_state) :
  safety_verdict plot pt = Ok false ->
  search_runs plot pt = false ->
  check_for_td fit_line plot pt st
  = if (Z.of_nat (List.length (heights plot)) <=? pt)%Z
    then (Ok true, mkTd false None None None None (drawn st)
                        (td_logs st ++ [(INFO, Msg_no_touchdown)]))
    else (Ok false, mkTd false None (plot_td_height st) (pre_td_slope st)
                         (post_td_slope st) (drawn st) (td_logs st)).
Proof.
  intros Hg Hs. unfold check_for_td.
  unfold bind at 1. cbn [td_reset].
  unfold bind at 1. rewrite safety_checks_eval, Hg, Hs.
  unfold bind at 1. unfold ret at 1.
  destruct (_ <=? _)%Z; reflexivity.
Qed.

(** C8.  The range-exhausted branch cannot be reached past the second step
    when the buffer holds one sample per planned height (or fewer): at a
    step [pt >= len(heights)] with [pt > 1] the first safety check reads
    [cdata[pt]], which is beyond the buffer, and [check_for_td] raises
    IndexError.  It does not return True, logs nothing, and leaves the
    height and the slopes of the plot as they were, where the branch under
    [if pt >= len(tdc_plot.heights)] would log 'Touchdown did not occur' and
    clear them. *)
Theorem range_exhausted_raises_IndexError (fit_line : fitter) (plot : tdc_plot)
    (pt : Z) (st : td_state) :
  (List.length (data plot) <= List.length (heights plot))%nat ->
  (Z.of_nat (List.length (heights plot)) <= pt)%Z ->
  (1 < pt)%Z ->
  exists st',
    check_for_td fit_line plot pt st = (Raise IndexError, st') /\
    td_has_occurred st' = false /\
    plot_td_height st' = plot_td_height st /\
    pre_td_slope st' = pre_td_slope st /\
    post_td_slope st' = post_td_slope st /\
    td_logs st' = td_logs st /\ drawn st' = drawn st.
Proof.
  intros Hbuf Hlen H1.
  assert (Hg : safety_verdict plot pt = Raise IndexError).
  { unfold safety_verdict. destruct (Z.ltb_spec 1 pt); [|lia].
    rewrite py_slice_whole by lia.
    change (py_range 0 2) with [0%Z; 1%Z]. cbn [map].
    unfold unbalanced at 1. rewrite Z.sub_0_r, py_index_beyond by lia.
    reflexivity. }
  rewrite (check_for_td_raise fit_line plot pt st IndexError Hg).
  eexists. split; [reflexivity|]. repeat split.
Qed.

Lemma demo_heights_distinct : distinct_heights demo_heights.
Proof.
  intros i j Hij. unfold demo_heights in *.
  rewrite length_map, length_seq in Hij.
  rewrite !nth_map_seq by lia. simpl Nat.add.
  intros H. unfold Qeq in H. simpl in H. lia.
Qed.

(** The failing input: a signal of slope 1/2 over the 20 planned heights,
    one sample per height, at step 20.  The plot held a height of 7 V from
    an earlier run, and still holds it. *)
Lemma range_exhausted_raises_IndexError_witness :
  flat_series flat_plot_exact (1 # 2) 1 /\
  (List.length (data flat_plot_exact) <= List.length (heights flat_plot_exact))%nat /\
  (Z.of_nat (List.length (heights flat_plot_exact)) <= 20)%Z /\
  (1 < 20)%Z /\
  exists st',
    check_for_td lsq_fit_line flat_plot_exact 20 demo_td_state = (Raise IndexError, st') /\
    plot_td_height st' = Some 7 /\ td_logs st' = [].
Proof.
  assert (Hf : flat_series flat_plot_exact (1 # 2) 1).
  { exists []. symmetry. apply app_nil_r. }
  assert (Hb : (List.length (data flat_plot_exact)
                <= List.length (heights flat_plot_exact))%nat).
  { unfold flat_plot_exact. cbn [data heights]. rewrite length_map. apply Nat.le_refl. }
  assert (Hl : (Z.of_nat (List.length (heights flat_plot_exact)) <= 20)%Z) by discriminate.
  assert (H1 : (1 < 20)%Z) by reflexivity.
  split; [exact Hf|]. split; [exact Hb|]. split; [exact Hl|]. split; [exact H1|].
  destruct (range_exhausted_raises_IndexError lsq_fit_line flat_plot_exact 20
              demo_td_state Hb Hl H1) as (st' & E & _ & Hh & _ & _ & Hlog & _).
  exists st'. split; [exact E|]. split; [exact Hh|exact Hlog].
Defined.

(** * Further properties of the driver *)

(** ** The limits of an axis *)

Lemma py_min_from_spec (l : list Q) :
  forall cur, In (py_min_from cur l) (cur :: l) /\
              forall x, In x (cur :: l) -> py_min_from cur l <= x.
Proof.
  induction l as [|y r IH]; intros cur; cbn [py_min_from].
  - split; [left; reflexivity|]. intros x [<-|[]]. apply Qle_refl.
  - destruct (Qltb y cur) eqn:E.
    + apply Qltb_lt in E. destruct (IH y) as [Hin Hle]. split.
      * right. exact Hin.
      * intros x [<-|Hx]; [|now apply Hle].
        apply Qle_trans with y; [apply Hle; left; reflexivity|now apply Qlt_le_weak].
    + apply Qltb_ge in E. destruct (IH cur) as [Hin Hle]. split.
      * destruct Hin as [Hin|Hin]; [left; exact Hin|right; right; exact Hin].
      * intros x [<-|[<-|Hx]].
        -- apply Hle. left. reflexivity.
        -- apply Qle_trans with cur; [apply Hle; left; reflexivity|exact E].
        -- apply Hle. right. exact Hx.
Qed.

Lemma py_max_from_spec (l : list Q) :
  forall cur, In (py_max_from cur l) (cur :: l) /\
              forall x, In x (cur :: l) -> x <= py_max_from cur l.
Proof.
  induction l as [|y r IH]; intros cur; cbn [py_max_from].
  - split; [left; reflexivity|]. intros x [<-|[]]. apply Qle_refl.
  - destruct (Qltb cur y) eqn:E.
    + apply Qltb_lt in E. destruct (IH y) as [Hin Hle]. split.
      * right. exact Hin.
      * intros x [<-|Hx]; [|now apply Hle].
        apply Qle_trans with y; [now apply Qlt_le_weak|apply Hle; left; reflexivity].
    + apply Qltb_ge in E. destruct (IH cur) as [Hin Hle]. split.
      * destruct Hin as [Hin|Hin]; [left; exact Hin|right; right; exact Hin].
      * intros x [<-|[<-|Hx]].
        -- apply Hle. left. reflexivity.
        -- apply Qle_trans with cur; [exact E|apply Hle; left; reflexivity].
        -- apply Hle. right. exact Hx.
Qed.

Lemma py_min_spec (l : list Q) (lo : Q) :
  py_min l = Some lo -> In lo l /\ forall x, In x l -> lo <= x.
Proof.
  destruct l as [|c r]; [discriminate|]. intros E. injection E as <-.
  apply py_min_from_spec.
Qed.

Lemma py_max_spec (l : list Q) (hi : Q) :
  py_max l = Some hi -> In hi l /\ forall x, In x l -> x <= hi.
Proof.
  destruct l as [|c r]; [discriminate|]. intros E. injection E as <-.
  apply py_max_from_spec.
Qed.

Lemma In_insert_sorted (x y : Q) (l : list Q) :
  In x (insert_sorted y l) <-> x = y \/ In x l.
Proof.
  induction l as [|z r IH]; cbn [insert_sorted].
  - simpl. intuition.
  - destruct (Qltb y z); simpl in *; rewrite ?IH; intuition.
Qed.

Lemma In_sorted (x : Q) (l : list Q) : In x (sorted l) <-> In x l.
Proof.
  unfold sorted.
  assert (H : forall acc,
             In x (fold_left (fun acc y => insert_sorted y acc) l acc)
             <-> In x l \/ In x acc).
  { induction l as [|y r IH]; intros acc; cbn [fold_left].
    - simpl. intuition.
    - rewrite IH, In_insert_sorted. simpl. intuition. }
  rewrite H. simpl. intuition.
Qed.

(** A value is within the limits of an axis when it lies between two of the
    limits configured for it, bounds included. *)
Lemma within_limits_iff (s : scanner) (new_pos : pos) (ax : axis) :
  voltage_limits s (temp s) ax <> [] ->
  (~ out_of_range s new_pos ax
   <-> (exists l, In l (voltage_limits s (temp s) ax) /\ l <= nth_ax new_pos ax) /\
       (exists h, In h (voltage_limits s (temp s) ax) /\ nth_ax new_pos ax <= h)).
Proof.
  intros Hne. apply sorted_nonempty in Hne.
  unfold out_of_range.
  destruct (py_min (sorted (voltage_limits s (temp s) ax))) as [lo|] eqn:Elo;
    [|destruct (sorted (voltage_limits s (temp s) ax)); [congruence|discriminate]].
  destruct (py_max (sorted (voltage_limits s (temp s) ax))) as [hi|] eqn:Ehi;
    [|destruct (sorted (voltage_limits s (temp s) ax)); [congruence|discriminate]].
  destruct (py_min_spec _ _ Elo) as [Hlo_in Hlo].
  destruct (py_max_spec _ _ Ehi) as [Hhi_in Hhi].
  split.
  - intros Hn. split.
    + exists lo. split; [now apply In_sorted|].
      apply Qnot_lt_le. intros H. apply Hn. exists lo, hi. auto.
    + exists hi. split; [now apply In_sorted|].
      apply Qnot_lt_le. intros H. apply Hn. exists lo, hi. auto.
  - intros [(l & Hl & Hlv) (h & Hh & Hvh)] (lo' & hi' & E1 & E2 & Hout).
    injection E1 as <-. injection E2 as <-.
    apply In_sorted in Hl, Hh.
    destruct Hout as [H|H].
    + apply (Qlt_not_le _ _ H). apply Qle_trans with l; [now apply Hlo|exact Hlv].
    + apply (Qlt_not_le _ _ H). apply Qle_trans with h; [exact Hvh|now apply Hhi].
Qed.

(** X1.  The validation loop of [goto] accepts a target exactly when, on
    every axis, the value lies between two of the limits configured for the
    active mode, bounds included; the order of the limits in the
    configuration plays no part. *)
Theorem check_limits_accepts_iff (s : scanner) (new_pos : pos) :
  limits_present s ->
  (check_limits s new_pos axes = Ok tt
   <-> forall ax,
         (exists l, In l (voltage_limits s (temp s) ax) /\ l <= nth_ax new_pos ax) /\
         (exists h, In h (voltage_limits s (temp s) ax) /\ nth_ax new_pos ax <= h)).
Proof.
  intros Hp. split.
  - intros E ax. apply within_limits_iff; [apply Hp|].
    destruct (check_limits_spec s new_pos axes Hp)
      as [(pre & a & post & _ & _ & _ & E')|[Hall _]].
    + rewrite E in E'. discriminate E'.
    + apply Hall, In_axes.
  - intros H.
    destruct (check_limits_spec s new_pos axes Hp)
      as [(pre & a & post & _ & _ & Ho & _)|[_ E]]; [|exact E].
    exfalso. revert Ho. apply within_limits_iff; [apply Hp|apply H].
Qed.

Lemma check_limits_accepts_iff_witness :
  limits_present demo_scanner /\
  check_limits demo_scanner (mkpos (-(5 # 2)) 5 0) axes = Ok tt.
Proof.
  assert (Hp : limits_present demo_scanner).
  { intros ax. vm_compute. discriminate. }
  split; [exact Hp|].
  apply (check_limits_accepts_iff demo_scanner (mkpos (-(5 # 2)) 5 0) Hp).
  intros ax. split.
  - exists (-(5 # 2)). split; [vm_compute; auto|destruct ax; vm_compute; discriminate].
  - exists 5. split; [vm_compute; auto|destruct ax; vm_compute; discriminate].
Defined.

(** ** The direct move *)

(** [make_ramp] touches nothing but the log, where it leaves the warning
    when the speed is above the configured one. *)
Lemma make_ramp_effects (s : scanner) (pos0 pos1 : pos) (v : Q) (w w' : world)
    (r : result (list (list Q))) :
  make_ramp s pos0 pos1 v w = (r, w') ->
  hw w' = hw w /\ reads w' = reads w /\ ai_signal w' = ai_signal w /\
  meta_position w' = meta_position w /\
  logs w' = logs w ++ (if Qltb (speed s) v
                       then [(WARNING, Msg_max_speed (speed s))] else []).
Proof.
  unfold make_ramp. cbv beta iota zeta delta [bind lift ret log].
  destruct (Qltb (speed s) v);
    destruct (ramp_npts s (max_ramp_distance pos0 pos1) v) as [n|e];
    try destruct (ramp_rows pos0 pos1 n axes) as [rows|e];
    intros E; injection E as <- <-; cbn [hw reads ai_signal meta_position logs];
    rewrite ?app_nil_r; repeat split.
Qed.




(** X3.  Whenever [goto] raises, whatever the reason (a speed that does not
    convert, a target out of range, a ramp that cannot be made, the staged
    branch), all it has done to the hardware is read the position once: no
    analog-output call was made and no ramp was written. *)
Theorem goto_raise_leaves_outputs (s : scanner) (new_pos : pos) (retract_first : bool)
    (spd : option qarg) (quiet : bool) (w w' : world) (e : exn) :
  goto s new_pos retract_first spd quiet w = (Raise e, w') ->
  hw w' = hw w ++ ai_task_calls (ai_signal w (reads w)) /\
  ao_calls (hw w') = ao_calls (hw w) /\
  ramps_written (hw w') = ramps_written (hw w).
Proof.
  intros H.
  assert (Hhw : hw w' = hw w ++ ai_task_calls (ai_signal w (reads w))).
  { destruct (speed_magnitude s spd) as [v|e0] eqn:Es.
    - destruct (check_limits s new_pos axes) as [[]|e1] eqn:Ec.
      + unfold goto, goto_body in H. rewrite Es, Ec in H.
        cbv beta iota zeta delta
          [bind position get_pos read_ai set_meta_position lift ret] in H.
        destruct retract_first; cbn [negb] in H.
        * unfold goto_staged, retract in H.
          cbv beta iota zeta delta [bind lift] in H.
          rewrite speed_magnitude_bare_number in H.
          injection H as _ <-. reflexivity.
        * match type of H with
          | context [make_ramp s ?p0 ?p1 v ?w0] =>
              destruct (make_ramp s p0 p1 v w0) as [[rows|e1] wm] eqn:E;
              destruct (make_ramp_effects s p0 p1 v w0 wm _ E) as (Ehw & _)
          end.
          -- unfold write_ramp in H.
             cbv beta iota zeta delta [bind emit log] in H. discriminate H.
          -- injection H as _ <-. exact Ehw.
      + destruct (goto_prologue (goto_staged s) s new_pos retract_first spd quiet w e1)
          as (w1 & Eg & Ehw).
        { right. split; [exists v; exact Es|exact Ec]. }
        unfold goto in H. rewrite Eg in H. injection H as _ <-. exact Ehw.
    - destruct (goto_prologue (goto_staged s) s new_pos retract_first spd quiet w e0)
        as (w1 & Eg & Ehw).
      { left. exact Es. }
      unfold goto in H. rewrite Eg in H. injection H as _ <-. exact Ehw. }
  split; [exact Hhw|].
  rewrite Hhw, ao_calls_after_read, ramps_written_after_read. split; reflexivity.
Qed.

Lemma goto_raise_leaves_outputs_witness :
  exists e w',
    goto demo_scanner (mkpos 1 1 1) false (Some (QNum 2)) false demo_world
    = (Raise e, w') /\
    ramps_written (hw w') = ramps_written (hw demo_world).
Proof.
  assert (E : goto demo_scanner (mkpos 1 1 1) false (Some (QNum 2)) false demo_world
              = (Raise DimensionalityError,
                 snd (goto demo_scanner (mkpos 1 1 1) false (Some (QNum 2)) false
                           demo_world))) by reflexivity.
  do 2 eexists. split; [exact E|].
  apply (goto_raise_leaves_outputs _ _ _ _ _ _ _ _ E).
Defined.

(** ** Edge cases of [make_ramp] *)

Lemma py_int_zero (q : Q) : q == 0 -> py_int q = 0%Z.
Proof.
  destruct q as [n d]. unfold Qeq, py_int. simpl. intros H.
  replace n with 0%Z by lia. reflexivity.
Qed.


Lemma max_ramp_distance_self (p : pos) : max_ramp_distance p p == 0.
Proof.
  apply Qle_antisym; [|apply max_ramp_distance_nonneg].
  unfold max_ramp_distance.
  assert (H : forall x, Qabs (x - x) <= 0).
  { intros x. setoid_replace (x - x) with 0 by ring. apply Qle_refl. }
  repeat apply Q.max_lub; apply H.
Qed.


(** X4.  A ramp between a position and itself, at any non-zero speed: each
    axis gets exactly two samples, both equal to the value of the axis. *)
Theorem make_ramp_no_displacement (s : scanner) (p : pos) (spd : Q) (w : world) :
  ~ spd == 0 ->
  exists a b c w',
    make_ramp s p p spd w = (Ok [[a; px p]; [b; py p]; [c; pz p]], w') /\
    a == px p /\ b == py p /\ c == pz p.
Proof.
  intros Hs.
  assert (En : ramp_npts s (max_ramp_distance p p) spd = Ok 2%Z).
  { unfold ramp_npts. destruct (Qeq_bool spd 0) eqn:E.
    - apply Qeq_bool_eq in E. contradiction.
    - rewrite py_int_zero; [reflexivity|].
      rewrite max_ramp_distance_self. unfold Qdiv. ring. }
  assert (Hrow : forall x, exists a, linspace x x 2 = Ok [a; x] /\ a == x).
  { intros x. eexists. split; [reflexivity|]. simpl. ring. }
  destruct (Hrow (px p)) as (a & Ea & Ha).
  destruct (Hrow (py p)) as (b & Eb & Hb).
  destruct (Hrow (pz p)) as (c & Ec & Hc).
  exists a, b, c.
  unfold make_ramp. cbv beta iota zeta delta [bind lift ret log].
  rewrite En. unfold ramp_rows, axes, nth_ax. rewrite Ea, Eb, Ec.
  destruct (Qltb (speed s) spd); eexists; (split; [reflexivity|auto]).
Qed.

Lemma make_ramp_no_displacement_witness :
  ~ -(1) == 0 /\
  exists rows w',
    make_ramp demo_scanner (mkpos 1 2 3) (mkpos 1 2 3) (-(1)) demo_world = (Ok rows, w') /\
    map (@List.length Q) rows = [2; 2; 2]%nat.
Proof.
  assert (Hs : ~ -(1) == 0) by discriminate.
  split; [exact Hs|].
  destruct (make_ramp_no_displacement demo_scanner (mkpos 1 2 3) (-(1)) demo_world Hs)
    as (a & b & c & w' & E & _).
  do 2 eexists. split; [exact E|reflexivity].
Defined.



(** ** Moves that start from a fresh reading: [retract] and the axis setters *)

Lemma get_pos_eval (w : world) :
  get_pos w
  = (Ok (round_pos (ai_signal w (reads w))),
     mkWorld (hw w ++ ai_task_calls (ai_signal w (reads w))) (ai_signal w)
             (S (reads w)) (logs w) (Some (round_pos (ai_signal w (reads w))))).
Proof. reflexivity. Qed.


(** Where the validation loop stops: the axes visited before the one it
    raises for are all within their limits. *)
Lemma axes_split (pre post : list axis) (ax : axis) :
  axes = pre ++ ax :: post -> pre = earlier_axes ax.
Proof.
  unfold axes. intros E.
  destruct pre as [|a [|b [|c pre]]]; simpl in E.
  - injection E as <- _. reflexivity.
  - injection E as <- <- _. reflexivity.
  - injection E as <- <- <- _. reflexivity.
  - injection E as _ _ _ E. destruct pre; discriminate E.
Qed.

Lemma goto_refuses_first (staged : Q -> pos -> M unit) (s : scanner) (new_pos : pos)
    (retract_first : bool) (spd : option qarg) (quiet : bool) (w : world) (v : Q) :
  limits_present s ->
  speed_magnitude s spd = Ok v ->
  (exists ax, out_of_range s new_pos ax) ->
  exists ax w',
    goto_body staged s new_pos retract_first spd quiet w
    = (Raise (ValueError_range ax (sorted (voltage_limits s (temp s) ax))), w') /\
    out_of_range s new_pos ax /\
    (forall a, In a (earlier_axes ax) -> ~ out_of_range s new_pos a) /\
    hw w' = hw w ++ ai_task_calls (ai_signal w (reads w)).
Proof.
  intros Hp Ev [bad Hbad].
  destruct (check_limits_spec s new_pos axes Hp)
    as [(pre & ax & post & Eax & Hpre & Ho & E)|[Hall _]];
    [|exfalso; exact (Hall bad (In_axes bad) Hbad)].
  destruct (goto_prologue staged s new_pos retract_first spd quiet w
              (ValueError_range ax (sorted (voltage_limits s (temp s) ax))))
    as (w' & Eg & Ehw).
  { right. split; [exists v; exact Ev|exact E]. }
  exists ax, w'. rewrite <- (axes_split pre post ax Eax).
  repeat split; assumption.
Qed.

(** The same when the target is out of range. *)
Lemma read_then_goto_refused (s : scanner) (f : pos -> pos) (spd : option qarg)
    (quiet : bool) (w : world) (v : Q) :
  limits_present s ->
  speed_magnitude s spd = Ok v ->
  let cur := round_pos (ai_signal w (reads w)) in
  (exists ax, out_of_range s (f cur) ax) ->
  exists ax w',
    (c <- get_pos ;; goto_direct s (f c) spd quiet) w
    = (Raise (ValueError_range ax (sorted (voltage_limits s (temp s) ax))), w') /\
    out_of_range s (f cur) ax /\
    ramps_written (hw w') = ramps_written (hw w).
Proof.
  intros Hp Es cur Ho.
  unfold bind at 1. rewrite get_pos_eval. fold cur.
  match goal with
  | |- context [goto_direct s (f cur) spd quiet ?w1] =>
      destruct (goto_refuses (fun _ _ => ret tt) s (f cur) false spd quiet w1 v Hp Es Ho)
        as (ax & w' & E & Hax & Ehw)
  end.
  exists ax, w'. unfold goto_direct. rewrite E.
  cbn [hw ai_signal reads] in Ehw.
  rewrite Ehw, !ramps_written_after_read. repeat split; assumption.
Qed.

Lemma retract_unfold (s : scanner) (spd : option qarg) (v : Q) (w : world) :
  speed_magnitude s spd = Ok v ->
  retract s spd w
  = (c <- get_pos ;;
     goto_direct s (mkpos (px c) (py c) (voltage_retract s (temp s)))
                 (Some (QStr v Volt_per_second)) false) w.
Proof.
  intros Es. unfold retract. unfold bind at 1. unfold lift. rewrite Es. reflexivity.
Qed.



(** X7.  [retract] validates the x and y it has just read along with the
    retract voltage: when any of the three is outside its limits, be it a
    reading of x or y, it raises the out-of-range error for the first such
    axis in the order x, y, z (every axis before it is within its limits)
    and writes no ramp. *)
Theorem retract_refused (s : scanner) (spd : option qarg) (w : world) (v : Q) :
  limits_present s ->
  speed_magnitude s spd = Ok v ->
  let cur := round_pos (ai_signal w (reads w)) in
  let target := mkpos (px cur) (py cur) (voltage_retract s (temp s)) in
  (exists ax, out_of_range s target ax) ->
  exists ax w',
    retract s spd w
    = (Raise (ValueError_range ax (sorted (voltage_limits s (temp s) ax))), w') /\
    out_of_range s target ax /\
    (forall a, In a (earlier_axes ax) -> ~ out_of_range s target a) /\
    ramps_written (hw w') = ramps_written (hw w).
Proof.
  intros Hp Es cur target Ho.
  rewrite (retract_unfold s spd v w Es).
  unfold bind at 1. rewrite get_pos_eval. fold cur. fold target.
  match goal with
  | |- context [goto_direct s target ?spd' false ?w1] =>
      destruct (goto_refuses_first (fun _ _ => ret tt) s target false spd' false w1 v
                  Hp eq_refl Ho) as (ax & w' & E & Hax & Hfirst & Ehw)
  end.
  exists ax, w'. unfold goto_direct. rewrite E.
  cbn [hw ai_signal reads] in Ehw.
  rewrite Ehw, !ramps_written_after_read. repeat split; assumption.
Qed.

Lemma retract_refused_witness :
  limits_present demo_scanner /\
  speed_magnitude demo_scanner None = Ok 1 /\
  out_of_range demo_scanner
    (mkpos (px (round_pos (mkpos 0 7 0))) (py (round_pos (mkpos 0 7 0)))
           (voltage_retract demo_scanner LT)) Y /\
  exists w',
    retract demo_scanner None (mkWorld [] (fun _ => mkpos 0 7 0) 0 [] None)
    = (Raise (ValueError_range Y [-(5 # 2); 5]), w') /\
    ramps_written (hw w') = [].
Proof.
  assert (Hp : limits_present demo_scanner).
  { intros ax. vm_compute. discriminate. }
  assert (Es : speed_magnitude demo_scanner None = Ok 1) by reflexivity.
  assert (Ho : out_of_range demo_scanner
                 (mkpos (px (round_pos (mkpos 0 7 0))) (py (round_pos (mkpos 0 7 0)))
                        (voltage_retract demo_scanner LT)) Y).
  { exists (-(5 # 2)), 5. vm_compute. repeat split; auto. }
  split; [exact Hp|]. split; [exact Es|]. split; [exact Ho|].
  destruct (retract_refused demo_scanner None
              (mkWorld [] (fun _ => mkpos 0 7 0) 0 [] None) 1 Hp Es)
    as (ax & w' & E & _ & _ & Hrw).
  { exists Y. exact Ho. }
  exists w'. split; [|exact Hrw].
  rewrite E. f_equal.
  assert (E' : fst (retract demo_scanner None
                      (mkWorld [] (fun _ => mkpos 0 7 0) 0 [] None))
               = Raise (ValueError_range Y [-(5 # 2); 5])) by (vm_compute; reflexivity).
  rewrite E in E'. exact E'.
Defined.


Lemma axis_setter_unfold (ax : axis) (s : scanner) (v : Q) (w : world) :
  axis_setter ax s v w
  = (c <- get_pos ;; goto_direct s (with_axis c ax v) None true) w.
Proof. destruct ax; reflexivity. Qed.



(** X9.  A setter validates the two readings it holds along with the
    requested value: when any axis of that position is outside its limits,
    a held reading included, it raises the out-of-range error and writes no
    ramp. *)
Theorem axis_setter_refused (ax : axis) (s : scanner) (v : Q) (w : world) :
  limits_present s ->
  let cur := round_pos (ai_signal w (reads w)) in
  (exists bad, out_of_range s (with_axis cur ax v) bad) ->
  exists bad w',
    axis_setter ax s v w
    = (Raise (ValueError_range bad (sorted (voltage_limits s (temp s) bad))), w') /\
    out_of_range s (with_axis cur ax v) bad /\
    ramps_written (hw w') = ramps_written (hw w).
Proof.
  intros Hp cur Ho. rewrite axis_setter_unfold.
  exact (read_then_goto_refused s (fun c => with_axis c ax v) None true w (speed s)
           Hp eq_refl Ho).
Qed.

Lemma axis_setter_refused_witness :
  limits_present demo_scanner /\
  out_of_range demo_scanner (with_axis (round_pos (mkpos (-3) 0 0)) Z_ax 1) X /\
  exists e w',
    _goto_z demo_scanner 1 (mkWorld [] (fun _ => mkpos (-3) 0 0) 0 [] None)
    = (Raise e, w') /\
    ramps_written (hw w') = [].
Proof.
  assert (Hp : limits_present demo_scanner).
  { intros ax. vm_compute. discriminate. }
  assert (Ho : out_of_range demo_scanner
                 (with_axis (round_pos (mkpos (-3) 0 0)) Z_ax 1) X).
  { exists (-(5 # 2)), 5. vm_compute. repeat split; auto. }
  split; [exact Hp|]. split; [exact Ho|].
  destruct (axis_setter_refused Z_ax demo_scanner 1
              (mkWorld [] (fun _ => mkpos (-3) 0 0) 0 [] None) Hp)
    as (bad & w' & E & _ & Hrw).
  { exists X. exact Ho. }
  eexists. exists w'. split; [exact E|exact Hrw].
Defined.

(** ** Construction: the mode string and the validators *)

Lemma upper_ascii_idempotent (c : ascii) : upper_ascii (upper_ascii c) = upper_ascii c.
Proof.
  destruct c as [[] [] [] [] [] [] [] []]; reflexivity.
Qed.

Lemma upper_idempotent (t : string) : upper (upper t) = upper t.
Proof.
  induction t as [|c r IH]; [reflexivity|].
  cbn [upper]. rewrite upper_ascii_idempotent, IH. reflexivity.
Qed.

(** X11.  Construction does not depend on the case of the temperature
    string: the string and its upper-case form give the same outcome. *)
Theorem Scanner_init_case_insensitive (cfg : scanner_config) (t : string) (w : world) :
  Scanner_init cfg (upper t) w = Scanner_init cfg t w.
Proof.
  unfold Scanner_init, parse_temp. rewrite upper_idempotent. reflexivity.
Qed.

Lemma numbers_validator_iff (l : list Q) :
  numbers_validator (py_min l) (py_max l) = Ok tt
  <-> exists a b, In a l /\ In b l /\ a < b.
Proof.
  unfold numbers_validator. split.
  - destruct (py_min l) as [lo|] eqn:Elo; [|discriminate].
    destruct (py_max l) as [hi|] eqn:Ehi; [|discriminate].
    destruct (Qltb lo hi) eqn:E; [|discriminate]. intros _.
    exists lo, hi. apply Qltb_lt in E.
    destruct (py_min_spec l lo Elo) as [H1 _].
    destruct (py_max_spec l hi Ehi) as [H2 _]. auto.
  - intros (a & b & Ha & Hb & Hab).
    destruct (py_min l) as [lo|] eqn:Elo; [|destruct l; [destruct Ha|discriminate]].
    destruct (py_max l) as [hi|] eqn:Ehi; [|destruct l; [destruct Ha|discriminate]].
    destruct (py_min_spec l lo Elo) as [_ H1].
    destruct (py_max_spec l hi Ehi) as [_ H2].
    assert (H : lo < hi).
    { apply Qle_lt_trans with a; [now apply H1|].
      apply Qlt_le_trans with b; [exact Hab|now apply H2]. }
    apply Qltb_lt in H. rewrite H. reflexivity.
Qed.

Lemma numbers_validator_cases (lo hi : option Q) :
  numbers_validator lo hi = Ok tt \/ exists e, numbers_validator lo hi = Raise e.
Proof.
  unfold numbers_validator. destruct lo, hi; try (right; eexists; reflexivity).
  destruct (Qltb _ _); [left; reflexivity|right; eexists; reflexivity].
Qed.

(** X12.  [_initialize_parameters] builds its validators exactly when every
    axis of the active mode has two limits of which one is strictly below
    the other; an axis with no limit, or with all its limits equal, makes
    it raise. *)
Theorem initialize_parameters_accepts_iff (s : scanner) :
  initialize_parameters s = Ok tt
  <-> forall ax, exists a b,
        In a (voltage_limits s (temp s) ax) /\
        In b (voltage_limits s (temp s) ax) /\ a < b.
Proof.
  assert (Hax : forall axs,
             axis_parameters s axs = Ok tt
             <-> forall ax, In ax axs ->
                   numbers_validator (py_min (voltage_limits s (temp s) ax))
                                     (py_max (voltage_limits s (temp s) ax)) = Ok tt).
  { induction axs as [|a r IH]; cbn [axis_parameters].
    - split; [intros _ ax []|reflexivity].
    - destruct (numbers_validator_cases (py_min (voltage_limits s (temp s) a))
                                        (py_max (voltage_limits s (temp s) a)))
        as [E|[e E]]; rewrite E.
      + rewrite IH. split.
        * intros H ax [<-|Hin]; [exact E|now apply H].
        * intros H ax Hin. apply H. right. exact Hin.
      + split; [discriminate|].
        intros H. specialize (H a (or_introl eq_refl)). rewrite E in H. discriminate H. }
  unfold initialize_parameters. split.
  - destruct (numbers_validator _ _); [|discriminate].
    intros H ax. apply numbers_validator_iff.
    apply (proj1 (Hax axes) H ax (In_axes ax)).
  - intros H.
    assert (Hg : numbers_validator (py_min (flat_map (voltage_limits s (temp s)) axes))
                                   (py_max (flat_map (voltage_limits s (temp s)) axes))
                 = Ok tt).
    { apply numbers_validator_iff. destruct (H X) as (a & b & Ha & Hb & Hab).
      exists a, b. repeat split; try assumption;
        apply in_flat_map; exists X; (split; [apply In_axes|assumption]). }
    rewrite Hg. apply Hax. intros ax _. apply numbers_validator_iff, H.
Qed.

(** ** Moving to the start of the next line *)

Lemma py_item_cases {A : Type} (l : list A) (k : Z) :
  (exists a, py_item l k = Ok a) \/ py_item l k = Raise IndexError.
Proof.
  unfold py_item. cbv zeta. destruct (_ || _); [right; reflexivity|].
  destruct (nth_error l _); [left; eexists; reflexivity|right; reflexivity].
Qed.

Lemma py_item_beyond {A : Type} (l : list A) (k : Z) :
  (Z.of_nat (List.length l) <= k)%Z -> py_item l k = Raise IndexError.
Proof.
  intros H. unfold py_item. cbv zeta.
  assert (E0 : (k <? 0)%Z = false) by (apply Z.ltb_ge; lia).
  rewrite E0. rewrite E0.
  assert (E1 : (Z.of_nat (List.length l) <=? k)%Z = true) by (apply Z.leb_le; lia).
  rewrite E1. reflexivity.
Qed.

Lemma py_item_nth {A : Type} (l : list A) (k : Z) (a : A) :
  (0 <= k)%Z -> nth_error l (Z.to_nat k) = Some a -> py_item l k = Ok a.
Proof.
  intros Hk E. unfold py_item. cbv zeta.
  assert (E0 : (k <? 0)%Z = false) by (apply Z.ltb_ge; lia).
  rewrite E0. rewrite E0.
  assert (Hlt : (Z.to_nat k < List.length l)%nat).
  { apply nth_error_Some. rewrite E. discriminate. }
  assert (E1 : (Z.of_nat (List.length l) <=? k)%Z = false) by (apply Z.leb_gt; lia).
  rewrite E1, E. reflexivity.
Qed.

Lemma grid_start_cases (g : scan_grids) (line : Z) (ax : axis) :
  (exists v, grid_start g line ax = Ok v) \/ grid_start g line ax = Raise IndexError.
Proof.
  unfold grid_start.
  destruct (py_item_cases (g ax) line) as [[row ->]| ->]; [|right; reflexivity].
  apply py_item_cases.
Qed.

Lemma check_limits_exn (s : scanner) (new_pos : pos) (axs : list axis) (e : exn) :
  check_limits s new_pos axs = Raise e -> e <> IndexError.
Proof.
  induction axs as [|ax rest IH]; cbn [check_limits]; [discriminate|].
  destruct (py_min _); [|intros E; injection E as <-; discriminate].
  destruct (py_max _); [|intros E; injection E as <-; discriminate].
  destruct (_ || _); [intros E; injection E as <-; discriminate|exact IH].
Qed.

Lemma ramp_rows_exn (pos0 pos1 : pos) (n : Z) (axs : list axis) (e : exn) :
  ramp_rows pos0 pos1 n axs = Raise e -> e <> IndexError.
Proof.
  induction axs as [|ax rest IH]; cbn [ramp_rows]; [discriminate|].
  unfold linspace at 1. destruct (n <? 0)%Z.
  - intros E. injection E as <-. discriminate.
  - destruct (ramp_rows pos0 pos1 n rest); [discriminate|].
    intros E. injection E as <-. apply IH. reflexivity.
Qed.

Lemma make_ramp_exn (s : scanner) (pos0 pos1 : pos) (v : Q) (w w' : world) (e : exn) :
  make_ramp s pos0 pos1 v w = (Raise e, w') -> e <> IndexError.
Proof.
  unfold make_ramp. cbv beta iota zeta delta [bind lift ret log].
  assert (Hn : forall e', ramp_npts s (max_ramp_distance pos0 pos1) v = Raise e' ->
                          e' <> IndexError).
  { unfold ramp_npts. intros e'. destruct (Qeq_bool v 0); [|discriminate].
    destruct (_ || _); intros E; injection E as <-; discriminate. }
  destruct (Qltb (speed s) v);
    (destruct (ramp_npts s (max_ramp_distance pos0 pos1) v) as [n|e2] eqn:En;
     [destruct (ramp_rows pos0 pos1 n axes) as [rows|e3] eqn:Er;
      [discriminate
      |intros E; injection E as <- _; exact (ramp_rows_exn _ _ _ _ _ Er)]
     |intros E; injection E as <- _; exact (Hn _ eq_refl)]).
Qed.

(** A direct [goto] raises no IndexError. *)
Lemma goto_direct_exn (s : scanner) (new_pos : pos) (spd : option qarg) (quiet : bool)
    (w w' : world) (e : exn) :
  goto s new_pos false spd quiet w = (Raise e, w') -> e <> IndexError.
Proof.
  intros H.
  destruct (speed_magnitude s spd) as [v|e0] eqn:Es.
  - destruct (check_limits s new_pos axes) as [[]|e1] eqn:Ec.
    + unfold goto, goto_body in H. rewrite Es, Ec in H.
      cbv beta iota zeta delta
        [bind position get_pos read_ai set_meta_position lift ret negb] in H.
      match type of H with
      | context [make_ramp s ?p0 ?p1 v ?w0] =>
          destruct (make_ramp s p0 p1 v w0) as [[rows|e1] wm] eqn:E
      end.
      * unfold write_ramp in H.
        cbv beta iota zeta delta [bind emit log] in H. discriminate H.
      * injection H as <- _. exact (make_ramp_exn _ _ _ _ _ _ _ E).
    + destruct (goto_prologue (goto_staged s) s new_pos false spd quiet w e1)
        as (w1 & Eg & _).
      { right. split; [exists v; exact Es|exact Ec]. }
      unfold goto in H. rewrite Eg in H. injection H as <- _.
      exact (check_limits_exn _ _ _ _ Ec).
  - destruct (goto_prologue (goto_staged s) s new_pos false spd quiet w e0)
      as (w1 & Eg & _).
    { left. exact Es. }
    unfold goto in H. rewrite Eg in H. injection H as <- _.
    destruct spd as [q|]; [|discriminate Es].
    unfold speed_magnitude, to_magnitude in Es.
    destruct (units_eqb _ _); [discriminate Es|]. injection Es as <-. discriminate.
Qed.

(** X13.  [goto_start_of_next_line] at the end of the scan: when the grid
    of some axis has no line after the current one, it returns normally
    and does nothing, not even a read. *)
Theorem goto_start_of_next_line_at_end (s : scanner) (g : scan_grids) (line : Z)
    (w : world) :
  (exists ax, (Z.of_nat (List.length (g ax)) <= line + 1)%Z) ->
  goto_start_of_next_line s g line w = (Ok tt, w).
Proof.
  intros [ax Hax].
  assert (E : start_of_line g (line + 1) = Raise IndexError).
  { assert (Hbad : grid_start g (line + 1) ax = Raise IndexError).
    { unfold grid_start. rewrite py_item_beyond by exact Hax. reflexivity. }
    unfold start_of_line.
    destruct (grid_start_cases g (line + 1) X) as [[x Ex]|Ex]; rewrite Ex;
      [|reflexivity].
    destruct (grid_start_cases g (line + 1) Y) as [[y Ey]|Ey]; rewrite Ey;
      [|reflexivity].
    destruct (grid_start_cases g (line + 1) Z_ax) as [[z Ez]|Ez]; rewrite Ez;
      [|reflexivity].
    destruct ax; congruence. }
  unfold goto_start_of_next_line, except_IndexError.
  unfold bind, lift. rewrite E. reflexivity.
Qed.

Lemma goto_start_of_next_line_at_end_witness :
  (exists ax, (Z.of_nat (List.length ((fun _ : axis => [[0; 1]; [2; 3]]) ax)) <= 1 + 1)%Z) /\
  goto_start_of_next_line demo_scanner (fun _ => [[0; 1]; [2; 3]]) 1 demo_world
  = (Ok tt, demo_world).
Proof.
  assert (H : exists ax,
             (Z.of_nat (List.length ((fun _ : axis => [[0; 1]; [2; 3]]) ax)) <= 1 + 1)%Z).
  { exists X. discriminate. }
  split; [exact H|].
  apply (goto_start_of_next_line_at_end demo_scanner (fun _ => [[0; 1]; [2; 3]]) 1
           demo_world H).
Defined.

(** X14.  When every axis has a next line with a first sample,
    [goto_start_of_next_line] is the quiet direct [goto] to those first
    samples: it moves there, and an error of that [goto], the out-of-range
    error included, is raised and not swallowed. *)
Theorem goto_start_of_next_line_moves (s : scanner) (g : scan_grids) (line : Z)
    (w : world) (x y z : Q) (rx ry rz : list Q) :
  (0 <= line + 1)%Z ->
  nth_error (g X) (Z.to_nat (line + 1)) = Some (x :: rx) ->
  nth_error (g Y) (Z.to_nat (line + 1)) = Some (y :: ry) ->
  nth_error (g Z_ax) (Z.to_nat (line + 1)) = Some (z :: rz) ->
  goto_start_of_next_line s g line w = goto s (mkpos x y z) false None true w.
Proof.
  intros Hl Ex Ey Ez.
  assert (E : start_of_line g (line + 1) = Ok (mkpos x y z)).
  { unfold start_of_line, grid_start.
    rewrite (py_item_nth _ _ _ Hl Ex), (py_item_nth _ _ _ Hl Ey),
      (py_item_nth _ _ _ Hl Ez). reflexivity. }
  unfold goto_start_of_next_line, except_IndexError.
  unfold bind at 1. unfold lift. rewrite E.
  destruct (goto s (mkpos x y z) false None true w) as [[u|e] w'] eqn:Eg;
    [reflexivity|].
  pose proof (goto_direct_exn _ _ _ _ _ _ _ Eg) as Hne.
  destruct e; try reflexivity. contradiction.
Qed.

Lemma goto_start_of_next_line_moves_witness :
  (0 <= 0 + 1)%Z /\
  exists w',
    goto_start_of_next_line demo_scanner (fun _ => [[0; 1]; [2; 3]]) 0 demo_world
    = (Ok tt, w') /\
    commanded (hw w') = Some (mkpos 2 2 2).
Proof.
  assert (Hl : (0 <= 0 + 1)%Z) by discriminate.
  split; [exact Hl|].
  rewrite (goto_start_of_next_line_moves demo_scanner (fun _ => [[0; 1]; [2; 3]]) 0
             demo_world 2 2 2 [3] [3] [3] Hl eq_refl eq_refl eq_refl).
  eexists. split; [vm_compute; reflexivity|reflexivity].
Defined.

(** ** Setting the position through the station *)

Lemma first_invalid_none (lo hi : Q) (values : list Q) :
  first_invalid lo hi values = None
  <-> forall v, In v values -> lo <= v /\ v <= hi.
Proof.
  induction values as [|x r IH]; cbn [first_invalid].
  - split; [intros _ v []|reflexivity].
  - destruct (Qle_bool lo x) eqn:E1; destruct (Qle_bool x hi) eqn:E2; cbn [andb];
      try (split; [discriminate|]; intros H;
           destruct (H x (or_introl eq_refl)) as [H1 H2];
           apply Qle_bool_iff in H1, H2; congruence).
    apply Qle_bool_iff in E1, E2. rewrite IH. split.
    + intros H v [<-|Hv]; [split; assumption|now apply H].
    + intros H v Hv. apply H. right. exact Hv.
Qed.

Lemma first_invalid_some (lo hi : Q) (values : list Q) (v : Q) :
  first_invalid lo hi values = Some v -> In v values /\ (v < lo \/ hi < v).
Proof.
  induction values as [|x r IH]; cbn [first_invalid]; [discriminate|].
  destruct (Qle_bool lo x) eqn:E1; destruct (Qle_bool x hi) eqn:E2; cbn [andb].
  - intros H. destruct (IH H) as [Hin Hout]. split; [right; exact Hin|exact Hout].
  - intros H. injection H as <-. split; [left; reflexivity|].
    right. apply Qnot_le_lt. intros Hle. apply Qle_bool_iff in Hle. congruence.
  - intros H. injection H as <-. split; [left; reflexivity|].
    left. apply Qnot_le_lt. intros Hle. apply Qle_bool_iff in Hle. congruence.
  - intros H. injection H as <-. split; [left; reflexivity|].
    left. apply Qnot_le_lt. intros Hle. apply Qle_bool_iff in Hle. congruence.
Qed.

(** X15.  [Microscope.goto] sets the [position] parameter, whose validator
    knows only the smallest and the largest limit over the three axes.  A
    target with a value outside that span is refused by the validator with
    the hardware untouched; any other target is handed to [Scanner.goto],
    whose outcome is the outcome of the call. *)
Theorem Microscope_goto_validates (s : scanner) (new_position : pos) (w : world)
    (lo hi : Q) :
  py_min (v_limits s) = Some lo ->
  py_max (v_limits s) = Some hi ->
  ((exists ax, nth_ax new_position ax < lo \/ hi < nth_ax new_position ax) ->
   exists v, Microscope_goto s new_position w = (Invalid v lo hi, w) /\
             (v < lo \/ hi < v)) /\
  ((forall ax, lo <= nth_ax new_position ax /\ nth_ax new_position ax <= hi) ->
   Microscope_goto s new_position w
   = (Called (fst (goto s new_position false None false w)),
      snd (goto s new_position false None false w))).
Proof.
  intros Elo Ehi. unfold Microscope_goto, position_set. rewrite Elo, Ehi. split.
  - intros [ax Hax].
    destruct (first_invalid lo hi (map (nth_ax new_position) axes)) as [v|] eqn:E.
    + exists v. split; [reflexivity|]. apply (first_invalid_some _ _ _ _ E).
    + exfalso. rewrite first_invalid_none in E.
      destruct (E (nth_ax new_position ax)) as [H1 H2].
      { apply in_map, In_axes. }
      destruct Hax as [H|H]; [apply (Qlt_not_le _ _ H H1)|apply (Qlt_not_le _ _ H H2)].
  - intros Hall.
    assert (E : first_invalid lo hi (map (nth_ax new_position) axes) = None).
    { apply first_invalid_none. intros v Hv. apply in_map_iff in Hv.
      destruct Hv as (ax & <- & _). apply Hall. }
    rewrite E. destruct (goto s new_position false None false w). reflexivity.
Qed.

Lemma Microscope_goto_validates_witness :
  py_min (v_limits demo_scanner) = Some (-(5 # 2)) /\
  py_max (v_limits demo_scanner) = Some 5 /\
  (exists ax, nth_ax (mkpos 0 7 0) ax < -(5 # 2) \/ 5 < nth_ax (mkpos 0 7 0) ax) /\
  exists v, Microscope_goto demo_scanner (mkpos 0 7 0) demo_world
            = (Invalid v (-(5 # 2)) 5, demo_world).
Proof.
  assert (Elo : py_min (v_limits demo_scanner) = Some (-(5 # 2))) by reflexivity.
  assert (Ehi : py_max (v_limits demo_scanner) = Some 5) by reflexivity.
  assert (Hax : exists ax, nth_ax (mkpos 0 7 0) ax < -(5 # 2)
                           \/ 5 < nth_ax (mkpos 0 7 0) ax).
  { exists Y. right. reflexivity. }
  repeat (split; [assumption|]).
  destruct (Microscope_goto_validates demo_scanner (mkpos 0 7 0) demo_world _ _ Elo Ehi)
    as [H _].
  destruct (H Hax) as (v & E & _). exists v. exact E.
Defined.

(** X16.  Through [Microscope.goto], a target that is out of range on some
    axis never moves the scanner: whether the validator refuses it or
    [Scanner.goto] does, no ramp is written. *)
Theorem Microscope_goto_out_of_range (s : scanner) (new_position : pos) (w : world) :
  limits_present s ->
  (exists ax, out_of_range s new_position ax) ->
  exists o w',
    Microscope_goto s new_position w = (o, w') /\
    ramps_written (hw w') = ramps_written (hw w) /\
    ((exists v lo hi, o = Invalid v lo hi /\ w' = w)
     \/ exists ax, o = Called (Raise (ValueError_range ax
                                        (sorted (voltage_limits s (temp s) ax))))
                   /\ out_of_range s new_position ax).
Proof.
  intros Hp Ho. unfold Microscope_goto, position_set.
  destruct (py_min (v_limits s)) as [lo|] eqn:Elo.
  - destruct (py_max (v_limits s)) as [hi|] eqn:Ehi.
    + destruct (first_invalid lo hi (map (nth_ax new_position) axes)) as [v|] eqn:E.
      * do 2 eexists. split; [reflexivity|]. split; [reflexivity|].
        left. exists v, lo, hi. split; reflexivity.
      * destruct (goto_refuses (goto_staged s) s new_position false None false w
                    (speed s) Hp eq_refl Ho) as (ax & w' & Eg & Hax & Ehw).
        unfold goto. rewrite Eg. do 2 eexists. split; [reflexivity|].
        split; [rewrite Ehw; apply ramps_written_after_read|].
        right. exists ax. split; [reflexivity|exact Hax].
    + exfalso. unfold v_limits, axes in Elo, Ehi. cbn [flat_map] in Elo, Ehi.
      destruct (voltage_limits s (temp s) X) eqn:EX; [exact (Hp X EX)|].
      discriminate Ehi.
  - exfalso. unfold v_limits, axes in Elo. cbn [flat_map] in Elo.
    destruct (voltage_limits s (temp s) X) eqn:EX; [exact (Hp X EX)|].
    discriminate Elo.
Qed.

Lemma Microscope_goto_out_of_range_witness :
  limits_present demo_scanner /\
  (exists ax, out_of_range demo_scanner (mkpos 0 0 (-3)) ax) /\
  exists o w',
    Microscope_goto demo_scanner (mkpos 0 0 (-3)) demo_world = (o, w') /\
    ramps_written (hw w') = [].
Proof.
  assert (Hp : limits_present demo_scanner).
  { intros ax. vm_compute. discriminate. }
  assert (Ho : exists ax, out_of_range demo_scanner (mkpos 0 0 (-3)) ax).
  { exists Z_ax. exists (-(5 # 2)), 5. vm_compute. repeat split; auto. }
  split; [exact Hp|]. split; [exact Ho|].
  destruct (Microscope_goto_out_of_range demo_scanner (mkpos 0 0 (-3)) demo_world Hp Ho)
    as (o & w' & E & Hrw & _).
  exists o, w'. split; [exact E|exact Hrw].
Defined.

(** ** Queueing a scan line *)

Lemma queue_channels_ok (g : scan_grids) (line : Z) (reverse : bool) :
  forall (chans : list (axis * Z)) (rows out : list (list Q)) (calls : list task_call)
         (logged : list Z),
    Forall2 (fun c row => py_item (g (fst c)) line = Ok row) chans rows ->
    queue_channels g line reverse chans out (mkLine (Some calls) logged)
    = (Ok (out ++ map (directed reverse) rows),
       mkLine (Some (calls ++ map (fun c => Add_ao_chan (fst c) (snd c)) chans)) logged).
Proof.
  induction chans as [|[ax idx] rest IH]; intros rows out calls logged H.
  - inversion H; subst. cbn [queue_channels map]. rewrite !app_nil_r. reflexivity.
  - inversion H as [|c row cs rs Hrow Hrest]; subst. cbn [fst] in Hrow.
    cbn [queue_channels]. unfold bind at 1. unfold lift. rewrite Hrow.
    unfold bind at 1. cbn [on_ao_task ao_task lines_logged].
    rewrite (IH rs _ _ _ Hrest). cbn [map fst snd].
    rewrite <- !app_assoc. reflexivity.
Qed.

(** X17.  [scan_line], when every output channel has the line: on a new
    task it adds the channels in the order of [ao_channels], sets a finite
    clock of as many samples as the first row has, logs the line and queues
    one row per channel, the line of that channel's grid, each one reversed
    when [reverse] is set.  It makes no other call on the task: the task is
    neither started nor closed. *)
Theorem scan_line_queues (g : scan_grids) (ao_channels : list (axis * Z)) (rate : Q)
    (line : Z) (reverse : bool) (st : line_state) (rows : list (list Q)) :
  ao_channels <> [] ->
  Forall2 (fun c row => py_item (g (fst c)) line = Ok row) ao_channels rows ->
  scan_line g ao_channels rate line reverse st
  = (Ok tt,
     mkLine (Some (map (fun c => Add_ao_chan (fst c) (snd c)) ao_channels
                   ++ [Cfg_finite rate (List.length (hd [] rows));
                       Write_queued (map (directed reverse) rows)]))
            (lines_logged st ++ [line])).
Proof.
  intros Hne H. unfold scan_line.
  unfold bind at 1. cbn [new_ao_task].
  unfold bind at 1. rewrite (queue_channels_ok g line reverse _ rows [] [] _ H).
  cbn [app].
  destruct rows as [|row rs].
  { inversion H; subst. congruence. }
  cbn [map hd]. unfold bind at 1. unfold lift. cbn [py_item].
  assert (E : py_item (directed reverse row :: map (directed reverse) rs) 0
              = Ok (directed reverse row)) by reflexivity.
  rewrite E.
  cbv beta iota zeta delta [bind on_ao_task log_line ao_task lines_logged].
  assert (El : List.length (directed reverse row) = List.length row).
  { unfold directed. destruct reverse; [apply length_rev|reflexivity]. }
  rewrite El, <- !app_assoc. reflexivity.
Qed.

Lemma scan_line_queues_witness :
  [(X, 0%Z); (Y, 1%Z)] <> [] /\
  Forall2 (fun c row => py_item ((fun _ : axis => [[0; 1]; [2; 3]]) (fst c)) 1 = Ok row)
          [(X, 0%Z); (Y, 1%Z)] [[2; 3]; [2; 3]] /\
  scan_line (fun _ => [[0; 1]; [2; 3]]) [(X, 0%Z); (Y, 1%Z)] 10 1 true (mkLine None [])
  = (Ok tt,
     mkLine (Some [Add_ao_chan X 0; Add_ao_chan Y 1; Cfg_finite 10 2;
                   Write_queued [[3; 2]; [3; 2]]]) [1%Z]).
Proof.
  assert (Hne : [(X, 0%Z); (Y, 1%Z)] <> []) by discriminate.
  assert (H : Forall2 (fun c row =>
                         py_item ((fun _ : axis => [[0; 1]; [2; 3]]) (fst c)) 1 = Ok row)
                      [(X, 0%Z); (Y, 1%Z)] [[2; 3]; [2; 3]]).
  { repeat constructor. }
  split; [exact Hne|]. split; [exact H|].
  apply (scan_line_queues (fun _ => [[0; 1]; [2; 3]]) [(X, 0%Z); (Y, 1%Z)] 10 1 true
           (mkLine None []) [[2; 3]; [2; 3]] Hne H).
Defined.

Lemma queue_channels_raise (g : scan_grids) (line : Z) (reverse : bool) :
  forall (chans : list (axis * Z)) (out : list (list Q)) (calls : list task_call)
         (logged : list Z) (e : exn) (st' : line_state),
    queue_channels g line reverse chans out (mkLine (Some calls) logged) = (Raise e, st') ->
    e = IndexError /\
    exists k, st' = mkLine (Some (calls ++ map (fun c => Add_ao_chan (fst c) (snd c))
                                               (firstn k chans))) logged.
Proof.
  induction chans as [|[ax idx] rest IH]; intros out calls logged e st' H.
  - discriminate H.
  - cbn [queue_channels] in H. unfold bind at 1 in H. unfold lift in H.
    destruct (py_item_cases (g ax) line) as [[row E]|E]; rewrite E in H.
    + unfold bind at 1 in H. cbn [on_ao_task ao_task lines_logged] in H.
      destruct (IH _ _ _ _ _ H) as (He & k & Hst).
      split; [exact He|]. exists (S k). rewrite Hst. cbn [firstn map fst snd].
      rewrite <- app_assoc. reflexivity.
    + injection H as <- <-. split; [reflexivity|].
      exists 0%nat. cbn [firstn map]. rewrite app_nil_r. reflexivity.
Qed.

Lemma queue_channels_state (g : scan_grids) (line : Z) (reverse : bool) :
  forall (chans : list (axis * Z)) (out out' : list (list Q)) (calls : list task_call)
         (logged : list Z) (st' : line_state),
    queue_channels g line reverse chans out (mkLine (Some calls) logged) = (Ok out', st') ->
    st' = mkLine (Some (calls ++ map (fun c => Add_ao_chan (fst c) (snd c)) chans)) logged
    /\ List.length out' = (List.length out + List.length chans)%nat.
Proof.
  induction chans as [|[ax idx] rest IH]; intros out out' calls logged st' H.
  - cbn [queue_channels] in H. injection H as <- <-. cbn [map List.length].
    rewrite app_nil_r. split; [reflexivity|lia].
  - cbn [queue_channels] in H. unfold bind at 1 in H. unfold lift in H.
    destruct (py_item (g ax) line) as [row|e]; [|discriminate H].
    unfold bind at 1 in H. cbn [on_ao_task ao_task lines_logged] in H.
    destruct (IH _ _ _ _ _ H) as (Hst & Hlen).
    split.
    + rewrite Hst. cbn [map fst snd]. rewrite <- app_assoc. reflexivity.
    + rewrite Hlen, length_app. cbn [List.length]. lia.
Qed.

(** X18.  When [scan_line] raises, the exception is an IndexError (a channel
    whose grid lacks the line, or no output channel at all), and the
    scanner is left holding the new task with some of the channels added
    and nothing else: no clock set, no samples queued, nothing logged. *)
Theorem scan_line_raises_before_queueing (g : scan_grids) (ao_channels : list (axis * Z))
    (rate : Q) (line : Z) (reverse : bool) (st st' : line_state) (e : exn) :
  scan_line g ao_channels rate line reverse st = (Raise e, st') ->
  e = IndexError /\
  lines_logged st' = lines_logged st /\
  exists k,
    ao_task st' = Some (map (fun c => Add_ao_chan (fst c) (snd c)) (firstn k ao_channels)).
Proof.
  unfold scan_line. unfold bind at 1. cbn [new_ao_task].
  unfold bind at 1.
  destruct (queue_channels g line reverse ao_channels [] (mkLine (Some []) (lines_logged st)))
    as [[out|e0] st1] eqn:Eq.
  - destruct (queue_channels_state _ _ _ _ _ _ _ _ _ Eq) as (Hst & Hlen).
    unfold bind at 1. unfold lift.
    destruct (py_item_cases out 0) as [[first E]|E]; rewrite E.
    + cbv beta iota zeta delta [bind on_ao_task log_line]. discriminate.
    + intros H. injection H as <- <-. split; [reflexivity|].
      rewrite Hst. cbn [lines_logged ao_task app]. split; [reflexivity|].
      exists (List.length ao_channels). rewrite firstn_all. reflexivity.
  - intros H. injection H as <- <-.
    destruct (queue_channels_raise _ _ _ _ _ _ _ _ _ Eq) as (He & k & Hst).
    split; [exact He|]. rewrite Hst. cbn [lines_logged ao_task app].
    split; [reflexivity|]. exists k. reflexivity.
Qed.

Lemma scan_line_raises_before_queueing_witness :
  exists st',
    scan_line (fun _ => [[0; 1]; [2; 3]]) [(X, 0%Z); (Y, 1%Z)] 10 2 false (mkLine None [])
    = (Raise IndexError, st') /\
    lines_logged st' = [].
Proof.
  assert (E : scan_line (fun _ => [[0; 1]; [2; 3]]) [(X, 0%Z); (Y, 1%Z)] 10 2 false
                        (mkLine None [])
              = (Raise IndexError, mkLine (Some []) [])) by reflexivity.
  eexists. split; [exact E|].
  apply (scan_line_raises_before_queueing _ _ _ _ _ _ _ _ E).
Defined.

(** ** More on the touchdown detector *)

(** X19.  [check_for_td] needs the sample of the step in the buffer: at a
    step [pt > 1] for which the buffer holds [pt] samples or fewer, the
    first safety check raises IndexError; the touchdown flag and height
    have been reset and nothing else has changed. *)
Theorem check_for_td_needs_sample (fit_line : fitter) (plot : tdc_plot) (pt : Z)
    (st : td_state) :
  (1 < pt)%Z ->
  (Z.of_nat (List.length (data plot)) <= pt)%Z ->
  check_for_td fit_line plot pt st
  = (Raise IndexError,
     mkTd false None (plot_td_height st) (pre_td_slope st) (post_td_slope st)
          (drawn st) (td_logs st)).
Proof.
  intros H1 Hlen. apply check_for_td_raise.
  unfold safety_verdict. destruct (Z.ltb_spec 1 pt); [|lia].
  rewrite py_slice_whole by lia.
  change (py_range 0 2) with [0%Z; 1%Z]. cbn [map].
  unfold unbalanced at 1. rewrite Z.sub_0_r, py_index_beyond by exact Hlen.
  reflexivity.
Qed.

Lemma check_for_td_needs_sample_witness :
  (1 < 20)%Z /\
  (Z.of_nat (List.length (data flat_plot_exact)) <= 20)%Z /\
  fst (check_for_td lsq_fit_line flat_plot_exact 20 demo_td_state) = Raise IndexError.
Proof.
  assert (H1 : (1 < 20)%Z) by reflexivity.
  assert (Hl : (Z.of_nat (List.length (data flat_plot_exact)) <= 20)%Z) by discriminate.
  split; [exact H1|]. split; [exact Hl|].
  rewrite (check_for_td_needs_sample lsq_fit_line flat_plot_exact 20 demo_td_state H1 Hl).
  reflexivity.
Defined.

(** X24.  No false touchdown on a flat series.  When the signal is one line
    of the height over the planned range, the heights are pairwise
    distinct, [1 <= N_fit_min < N_window] and the fit is exact on the
    points of a line, [check_for_td] records no touchdown at any step,
    whatever else it does there (go on, stop, or raise). *)
Theorem flat_series_never_detected (fit_line : fitter) (plot : tdc_plot) (a b : Q)
    (pt : Z) (st : td_state) :
  exact_on_lines fit_line ->
  flat_series plot a b ->
  distinct_heights (heights plot) ->
  (1 <= N_fit_min (constants plot) < N_window (constants plot))%Z ->
  exists r st',
    check_for_td fit_line plot pt st = (r, st') /\
    td_has_occurred st' = false /\ td_height st' = None.
Proof.
  intros Hfit Hflat Hd Hc.
  destruct (safety_verdict plot pt) as [[|]|e] eqn:Hg.
  - rewrite (check_for_td_gate fit_line plot pt st Hg).
    do 2 eexists. split; [reflexivity|]. split; reflexivity.
  - destruct (search_runs plot pt) eqn:Hs.
    + rewrite (check_for_td_search fit_line plot pt st Hg Hs).
      destruct (flat_slopes fit_line plot a b pt Hfit Hflat Hd Hc Hs) as [E0 E1].
      unfold changepoint.
      cbv beta iota zeta delta [bind ret td_draw td_reset td_log td_detected snd].
      destruct (Qltb (max_slope (constants plot))
                     (Qabs (fst (pre_fit fit_line plot pt)))) eqn:Ea.
      * do 2 eexists. split; [reflexivity|]. split; reflexivity.
      * destruct (Qltb (max_slope (constants plot))
                       (Qabs (fst (pre_fit fit_line plot pt)
                              - fst (post_fit fit_line plot pt)))) eqn:Eb.
        -- exfalso. apply Qltb_ge in Ea. apply Qltb_lt in Eb.
           rewrite E0, E1 in Eb. rewrite E0 in Ea.
           setoid_replace (a - a) with 0 in Eb by ring.
           change (Qabs 0) with 0 in Eb.
           apply (Qlt_irrefl 0).
           apply Qle_lt_trans with (Qabs a); [apply Qabs_nonneg|].
           apply Qle_lt_trans with (max_slope (constants plot)); assumption.
        -- do 2 eexists. split; [reflexivity|]. split; reflexivity.
    + rewrite (check_for_td_no_search fit_line plot pt st Hg Hs).
      destruct (_ <=? _)%Z; do 2 eexists; (split; [reflexivity|]);
        split; reflexivity.
  - rewrite (check_for_td_raise fit_line plot pt st e Hg).
    do 2 eexists. split; [reflexivity|]. split; reflexivity.
Qed.

Lemma flat_series_never_detected_witness :
  exact_on_lines lsq_fit_line /\
  flat_series flat_plot_exact (1 # 2) 1 /\
  distinct_heights (heights flat_plot_exact) /\
  (1 <= N_fit_min (constants flat_plot_exact) < N_window (constants flat_plot_exact))%Z /\
  search_runs flat_plot_exact 17 = true /\
  exists st',
    check_for_td lsq_fit_line flat_plot_exact 17 demo_td_state = (Ok false, st') /\
    td_has_occurred st' = false.
Proof.
  assert (Hf : flat_series flat_plot_exact (1 # 2) 1).
  { exists []. symmetry. apply app_nil_r. }
  assert (Hc : (1 <= N_fit_min (constants flat_plot_exact)
                < N_window (constants flat_plot_exact))%Z)
    by (split; [discriminate|reflexivity]).
  split; [exact lsq_exact_on_lines|]. split; [exact Hf|].
  split; [exact demo_heights_distinct|]. split; [exact Hc|].
  split; [reflexivity|].
  destruct (flat_series_never_detected lsq_fit_line flat_plot_exact (1 # 2) 1 17
              demo_td_state lsq_exact_on_lines Hf demo_heights_distinct Hc)
    as (r & st' & E & Ho & _).
  exists st'. split; [|exact Ho].
  assert (E' : fst (check_for_td lsq_fit_line flat_plot_exact 17 demo_td_state)
               = Ok false) by (vm_compute; reflexivity).
  rewrite E in E'. cbn [fst] in E'. subst r. exact E.
Defined.

(** What the changepoint block does, by cases. *)
Lemma changepoint_cases (fit_line : fitter) (plot : tdc_plot) (pt : Z) (st : td_state) :
  let p0 := pre_fit fit_line plot pt in
  let p1 := post_fit fit_line plot pt in
  let m := max_slope (constants plot) in
  exists st',
    (m < Qabs (fst p0) /\
     changepoint fit_line plot pt st = (Ok true, st') /\
     td_has_occurred st' = td_has_occurred st /\ td_height st' = td_height st)
    \/ (Qabs (fst p0) <= m /\ m < Qabs (fst p0 - fst p1) /\
        changepoint fit_line plot pt st = (Ok false, st') /\
        td_has_occurred st' = true /\
        td_height st' = Some ((snd p1 - snd p0) / (fst p0 - fst p1)))
    \/ (Qabs (fst p0) <= m /\ Qabs (fst p0 - fst p1) <= m /\
        changepoint fit_line plot pt st = (Ok false, st') /\
        td_has_occurred st' = td_has_occurred st /\ td_height st' = td_height st).
Proof.
  intros p0 p1 m. unfold changepoint. fold p0 p1 m.
  cbv beta iota zeta delta [bind ret td_draw td_log td_detected].
  destruct (Qltb m (Qabs (fst p0))) eqn:Ea.
  - apply Qltb_lt in Ea. eexists. left.
    split; [exact Ea|]. split; [reflexivity|]. split; reflexivity.
  - apply Qltb_ge in Ea.
    destruct (Qltb m (Qabs (fst p0 - fst p1))) eqn:Eb.
    + apply Qltb_lt in Eb. eexists. right. left.
      split; [exact Ea|]. split; [exact Eb|]. split; [reflexivity|].
      split; reflexivity.
    + apply Qltb_ge in Eb. eexists. right. right.
      split; [exact Ea|]. split; [exact Eb|]. split; [reflexivity|].
      split; reflexivity.
Qed.

(** X20.  A touchdown is recorded only by the detection branch: if
    [td_has_occurred] is set after [check_for_td], then the call returned
    True, the safety checks had passed, the changepoint search ran (so
    [N_window + 10 < pt < len(heights)]), the slope before the split was
    within [max_slope], the two slopes differed by more than [max_slope],
    and the height recorded is the intersection of the two lines. *)
Theorem touchdown_only_by_detection (fit_line : fitter) (plot : tdc_plot) (pt : Z)
    (st st' : td_state) (r : result bool) :
  check_for_td fit_line plot pt st = (r, st') ->
  td_has_occurred st' = true ->
  let p0 := pre_fit fit_line plot pt in
  let p1 := post_fit fit_line plot pt in
  r = Ok true /\
  safety_verdict plot pt = Ok false /\
  (N_window (constants plot) + 10 < pt < Z.of_nat (List.length (heights plot)))%Z /\
  Qabs (fst p0) <= max_slope (constants plot) /\
  max_slope (constants plot) < Qabs (fst p0 - fst p1) /\
  td_height st' = Some ((snd p1 - snd p0) / (fst p0 - fst p1)).
Proof.
  intros E Ht p0 p1.
  destruct (safety_verdict plot pt) as [[|]|e] eqn:Hg.
  - rewrite (check_for_td_gate fit_line plot pt st Hg) in E.
    injection E as _ <-. discriminate Ht.
  - destruct (search_runs plot pt) eqn:Hs.
    + rewrite (check_for_td_search fit_line plot pt st Hg Hs) in E.
      destruct (changepoint_cases fit_line plot pt (snd (td_reset st)))
        as (st1 & [(Ha & Ec & H1 & H2)|[(Ha & Hb & Ec & H1 & H2)|(Ha & Hb & Ec & H1 & H2)]]);
        rewrite Ec in E; injection E as <- <-.
      * rewrite H1 in Ht. discriminate Ht.
      * unfold search_runs in Hs. apply andb_true_iff in Hs as [Hs1 Hs2].
        apply Z.ltb_lt in Hs1, Hs2.
        repeat split; try assumption. f_equal. exact H1.
      * rewrite H1 in Ht. discriminate Ht.
    + rewrite (check_for_td_no_search fit_line plot pt st Hg Hs) in E.
      destruct (_ <=? _)%Z; injection E as _ <-; discriminate Ht.
  - rewrite (check_for_td_raise fit_line plot pt st e Hg) in E.
    injection E as _ <-. discriminate Ht.
Qed.

Lemma touchdown_only_by_detection_witness :
  exists st' h,
    check_for_td lsq_fit_line kink_plot 17 demo_td_state = (Ok true, st') /\
    td_has_occurred st' = true /\
    td_height st' = Some h /\ h == 14.
Proof.
  assert (E : check_for_td lsq_fit_line kink_plot 17 demo_td_state
              = (Ok true, snd (check_for_td lsq_fit_line kink_plot 17 demo_td_state)))
    by (vm_compute; reflexivity).
  assert (Ht : td_has_occurred (snd (check_for_td lsq_fit_line kink_plot 17 demo_td_state))
               = true) by (vm_compute; reflexivity).
  destruct (touchdown_only_by_detection lsq_fit_line kink_plot 17 demo_td_state _ _ E Ht)
    as (_ & _ & _ & _ & _ & Hh).
  do 2 eexists. split; [exact E|]. split; [exact Ht|]. split; [exact Hh|].
  vm_compute. reflexivity.
Defined.

(** X21.  [check_for_td] returns False, so that the stepping goes on,
    exactly when the safety checks pass, the step is still inside the
    planned range and, if the changepoint search runs, neither the slope
    before the split nor the difference of the two slopes exceeds
    [max_slope]. *)
Theorem check_for_td_continues_iff (fit_line : fitter) (plot : tdc_plot) (pt : Z)
    (st : td_state) :
  let p0 := pre_fit fit_line plot pt in
  let p1 := post_fit fit_line plot pt in
  let m := max_slope (constants plot) in
  fst (check_for_td fit_line plot pt st) = Ok false
  <-> safety_verdict plot pt = Ok false /\
      (pt < Z.of_nat (List.length (heights plot)))%Z /\
      (search_runs plot pt = true ->
       Qabs (fst p0) <= m /\ Qabs (fst p0 - fst p1) <= m).
Proof.
  intros p0 p1 m.
  destruct (safety_verdict plot pt) as [[|]|e] eqn:Hg.
  - rewrite (check_for_td_gate fit_line plot pt st Hg). cbn [fst].
    split; [discriminate|intros [H _]; discriminate H].
  - destruct (search_runs plot pt) eqn:Hs.
    + rewrite (check_for_td_search fit_line plot pt st Hg Hs).
      assert (Hlt : (pt < Z.of_nat (List.length (heights plot)))%Z).
      { unfold search_runs in Hs. apply andb_true_iff in Hs as [Hs1 _].
        apply Z.ltb_lt in Hs1. exact Hs1. }
      destruct (changepoint_cases fit_line plot pt (snd (td_reset st)))
        as (st1 & [(Ha & Ec & H1 & H2)|[(Ha & Hb & Ec & H1 & H2)|(Ha & Hb & Ec & H1 & H2)]]);
        rewrite Ec; cbn [fst]; fold p0 p1 m in Ha.
      * split; [discriminate|]. intros (_ & _ & H). destruct (H eq_refl) as [H0 _].
        exfalso. apply (Qlt_not_le _ _ Ha H0).
      * rewrite H1. split; [discriminate|].
        intros (_ & _ & H). destruct (H eq_refl) as [_ H0].
        exfalso. apply (Qlt_not_le _ _ Hb H0).
      * rewrite H1. cbn [td_reset snd td_has_occurred].
        split; [|reflexivity]. intros _. split; [reflexivity|].
        split; [exact Hlt|]. intros _. split; assumption.
    + rewrite (check_for_td_no_search fit_line plot pt st Hg Hs).
      destruct (Z.leb_spec (Z.of_nat (List.length (heights plot))) pt); cbn [fst].
      * split; [discriminate|]. intros (_ & Hlt & _). lia.
      * split; [|reflexivity]. intros _. split; [reflexivity|].
        split; [assumption|discriminate].
  - rewrite (check_for_td_raise fit_line plot pt st e Hg). cbn [fst].
    split; [discriminate|intros [H _]; discriminate H].
Qed.

(** ** The prefactors of a measurement *)

Lemma channel_prefactor_unbound (mod_width susc_amp : Q) (ch : string) (gain : Q) :
  ch = "CAP"%string \/ is_susc ch = true ->
  exists e, channel_prefactor mod_width susc_amp ch gain = Failed e /\
            (~ susc_amp == 0 -> e = NameError_sensitivity).
Proof.
  intros [-> | Hs]; unfold channel_prefactor.
  - cbn. eexists. split; [reflexivity|]. reflexivity.
  - destruct (String.eqb_spec ch "MAG") as [-> | _]; [discriminate Hs|].
    rewrite Hs. destruct (Qeq_bool susc_amp 0) eqn:E.
    + eexists. split; [reflexivity|]. intros H. apply Qeq_bool_eq in E. contradiction.
    + eexists. split; [reflexivity|]. reflexivity.
Qed.

Lemma channel_prefactor_failure (mod_width susc_amp : Q) (ch : string) (gain : Q)
    (e : prefactor_error) :
  channel_prefactor mod_width susc_amp ch gain = Failed e ->
  ~ mod_width == 0 -> ~ susc_amp == 0 -> ~ gain == 0 ->
  e = NameError_sensitivity.
Proof.
  intros H Hm Ha Hg. unfold channel_prefactor, py_div in H.
  assert (Em : Qeq_bool mod_width 0 = false).
  { destruct (Qeq_bool mod_width 0) eqn:E; [apply Qeq_bool_eq in E; contradiction|reflexivity]. }
  assert (Ea : Qeq_bool susc_amp 0 = false).
  { destruct (Qeq_bool susc_amp 0) eqn:E; [apply Qeq_bool_eq in E; contradiction|reflexivity]. }
  assert (Eg : Qeq_bool gain 0 = false).
  { destruct (Qeq_bool gain 0) eqn:E; [apply Qeq_bool_eq in E; contradiction|reflexivity]. }
  rewrite Em, Ea, Eg in H.
  destruct (String.eqb ch "MAG"), (is_susc ch), (String.eqb ch "CAP");
    try discriminate H; injection H as <-; reflexivity.
Qed.

(** X23.  [get_prefactors] cannot return when the measurement has a CAP,
    SUSCX or SUSCY channel: the prefactor of such a channel refers to the
    name [sensitivity], which is bound nowhere, so the call raises.  Unless
    a zero modulation width, amplitude or gain makes a division fail first,
    the exception is that NameError. *)
Theorem get_prefactors_unbound_name (mod_width susc_amp : Q)
    (channels : list (string * Q)) :
  (exists ch gain, In (ch, gain) channels /\ (ch = "CAP"%string \/ is_susc ch = true)) ->
  exists e,
    get_prefactors mod_width susc_amp channels = Failed e /\
    (~ mod_width == 0 -> ~ susc_amp == 0 ->
     (forall c g, In (c, g) channels -> ~ g == 0) ->
     e = NameError_sensitivity).
Proof.
  unfold get_prefactors. generalize (@nil (string * Q)) as acc.
  induction channels as [|[c g] rest IH]; intros acc (ch & gain & Hin & Hkind).
  - destruct Hin.
  - cbn [prefactors_loop].
    destruct (channel_prefactor mod_width susc_amp c g) as [p|e] eqn:E.
    + destruct Hin as [Heq|Hin].
      * injection Heq as -> ->.
        destruct (channel_prefactor_unbound mod_width susc_amp ch gain Hkind)
          as (e & E' & _).
        rewrite E' in E. discriminate E.
      * destruct (IH (dict_update acc c p)) as (e & E' & He).
        { exists ch, gain. split; assumption. }
        exists e. split; [exact E'|]. intros Hm Ha Hg. apply He; try assumption.
        intros c' g' H'. apply (Hg c' g'). right. exact H'.
    + exists e. split; [reflexivity|]. intros Hm Ha Hg.
      apply (channel_prefactor_failure _ _ _ _ _ E Hm Ha).
      apply (Hg c g). left. reflexivity.
Qed.

Lemma get_prefactors_unbound_name_witness :
  (exists ch gain, In (ch, gain) [("MAG"%string, 2); ("CAP"%string, 1)]
                   /\ (ch = "CAP"%string \/ is_susc ch = true)) /\
  get_prefactors (1 # 2) 1 [("MAG"%string, 2); ("CAP"%string, 1)]
  = Failed NameError_sensitivity.
Proof.
  assert (H : exists ch gain, In (ch, gain) [("MAG"%string, 2); ("CAP"%string, 1)]
                              /\ (ch = "CAP"%string \/ is_susc ch = true)).
  { exists "CAP"%string, 1. split; [right; left; reflexivity|left; reflexivity]. }
  split; [exact H|].
  destruct (get_prefactors_unbound_name (1 # 2) 1 _ H) as (e & E & He).
  rewrite E. f_equal. apply He; try discriminate.
  intros c g [Hc|[Hc|[]]]; injection Hc as _ <-; discriminate.
Defined.
